(** * update_santiment.py: the merge-update of a Pine Seeds CSV table

    A shallow embedding of [save_new_data] and of the date conversion of
    [process_data_file] (src/update_example/update_santiment.py), together
    with the parts of the Python runtime they go through: text-mode files,
    [csv.writer], [csv.reader], [sorted] and [dict].

    Modelling conventions.
    - A Python [str] is a [string]: the sequence of its UTF-8 bytes, which
      is how the files are encoded.  Byte-wise lexicographic order of
      UTF-8 coincides with the code point order Python sorts [str] by, and
      every character the csv module treats specially is one byte.
    - A field value handed to [csv.writer] is a [pyval]; a float is carried
      by its [repr], the only thing the program observes of it.
    - A dict with [str] keys is a [gmap string]; the order in which it
      lists its keys is lost, and [sorted] makes it irrelevant.
    - The file system is a finite map from path to file content.  POSIX is
      assumed: [os.linesep] is a single line feed, so writing in text mode
      leaves the text as it is, and reading translates newlines.
    - Left out: I/O and decoding errors, the field size limit of the csv
      module (131072 characters), and the error the reader of Python
      versions before 3.11 raises on a NUL character. *)

From Stdlib Require Import ZArith Ascii String.
From stdpp Require Import list sorting gmap strings pretty.

Local Open Scope string_scope.

(** ** Characters that matter to the csv module *)

Definition LF : ascii := ascii_of_nat 10.
Definition CR : ascii := ascii_of_nat 13.
Definition COMMA : ascii := ascii_of_nat 44.
Definition DQUOTE : ascii := ascii_of_nat 34.
Definition DASH : ascii := ascii_of_nat 45.
Definition LETTER_T : ascii := ascii_of_nat 84.
Arguments LF : simpl never.
Arguments CR : simpl never.
Arguments COMMA : simpl never.
Arguments DQUOTE : simpl never.
Arguments DASH : simpl never.
Arguments LETTER_T : simpl never.

(** ** Exceptions and the error monad *)

Inductive exn : Type :=
| IndexError   (* list index out of range *)
| KeyError     (* dict key not found *)
| ValueError   (* substring not found *)
| CsvError.    (* _csv.Error *)

Inductive result (A : Type) : Type :=
| Ok (a : A)
| Raise (e : exn).
Arguments Ok {A} a.
Arguments Raise {A} e.

#[global] Instance result_bind : MBind result := λ A B k r,
  match r with
  | Ok a => k a
  | Raise e => Raise e
  end.

(** ** Python values written as csv fields *)

Inductive pyval : Type :=
| PyStr (s : string)
| PyInt (n : Z)
| PyFloat (repr : string)
| PyNone.

(** [str(v)] *)
Definition py_str (v : pyval) : string :=
  match v with
  | PyStr s => s
  | PyInt n => pretty n
  | PyFloat r => r
  | PyNone => "None"
  end.

(** The text [csv.writer] takes for a field: a [str] as it is, [None] as
    the empty string, anything else through [str()]. *)
Definition field_text (v : pyval) : string :=
  match v with
  | PyStr s => s
  | PyNone => ""
  | _ => py_str v
  end.

(** ** Text-mode files *)

(** Reading with [newline=None]: every CR LF and every lone CR becomes LF.
    [pendingcr] is the flag of the incremental newline decoder: the
    previous character was a CR, already emitted as LF. *)
Fixpoint translate_newlines (pendingcr : bool) (s : string) : string :=
  match s with
  | EmptyString => EmptyString
  | String c s' =>
      if Ascii.eqb c CR then String LF (translate_newlines true s')
      else if Ascii.eqb c LF then
        if pendingcr then translate_newlines false s'
        else String LF (translate_newlines false s')
      else String c (translate_newlines false s')
  end.

Definition universal_newlines (s : string) : string :=
  translate_newlines false s.

(** Iterating over a text file: the lines, each with its line feed, the
    last one possibly without. [cur] is the line read so far. *)
Fixpoint file_lines_from (cur : string) (s : string) : list string :=
  match s with
  | EmptyString => match cur with EmptyString => [] | _ => [cur] end
  | String c s' =>
      if Ascii.eqb c LF then (cur ++ String LF EmptyString) :: file_lines_from EmptyString s'
      else file_lines_from (cur ++ String c EmptyString) s'
  end.

Definition file_lines (s : string) : list string :=
  file_lines_from EmptyString s.

(** ** csv.writer, dialect excel
    delimiter comma, quotechar double quote, doublequote, QUOTE_MINIMAL,
    lineterminator CR LF, no escapechar. *)

Definition special_char (c : ascii) : bool :=
  Ascii.eqb c COMMA || Ascii.eqb c DQUOTE || Ascii.eqb c CR || Ascii.eqb c LF.

Fixpoint needs_quotes (s : string) : bool :=
  match s with
  | EmptyString => false
  | String c s' => special_char c || needs_quotes s'
  end.

(** Each quote character of the field is written twice. *)
Fixpoint double_quotes (s : string) : string :=
  match s with
  | EmptyString => EmptyString
  | String c s' =>
      if Ascii.eqb c DQUOTE then String DQUOTE (String DQUOTE (double_quotes s'))
      else String c (double_quotes s')
  end.

Definition quote_field (s : string) : string :=
  if needs_quotes s then String DQUOTE (double_quotes s ++ String DQUOTE EmptyString)
  else s.

Fixpoint join_fields (fs : list string) : string :=
  match fs with
  | [] => EmptyString
  | [f] => quote_field f
  | f :: fs' => quote_field f ++ String COMMA (join_fields fs')
  end.

Definition lineterminator : string := String CR (String LF EmptyString).

(** [writer.writerow(row)]: the text appended to the file.  A row made of
    one empty field is written as a pair of quotes. *)
Definition writerow (row : list pyval) : string :=
  let text := join_fields (field_text <$> row) in
  match row, text with
  | _ :: _, EmptyString => String DQUOTE (String DQUOTE lineterminator)
  | _, _ => text ++ lineterminator
  end.

(** ** csv.reader, dialect excel, not strict *)

Inductive parser_state : Type :=
| START_RECORD
| START_FIELD
| IN_FIELD
| IN_QUOTED_FIELD
| QUOTE_IN_QUOTED_FIELD
| EAT_CRNL.

Record reader := mk_reader {
  state : parser_state;
  fields : list string;   (* the fields saved so far *)
  field : string          (* the field being read *)
}.

Definition parse_reset : reader := mk_reader START_RECORD [] EmptyString.

Definition parse_save_field (r : reader) (st : parser_state) : reader :=
  mk_reader st (fields r ++ [field r]) EmptyString.

Definition parse_add_char (r : reader) (c : ascii) (st : parser_state) : reader :=
  mk_reader st (fields r) (field r ++ String c EmptyString).

Definition set_state (r : reader) (st : parser_state) : reader :=
  mk_reader st (fields r) (field r).

Definition is_newline (c : ascii) : bool := Ascii.eqb c LF || Ascii.eqb c CR.

(** One step on a character of the line. *)
Definition process_char (r : reader) (c : ascii) : result reader :=
  match state r with
  | START_RECORD =>
      if is_newline c then Ok (set_state r EAT_CRNL)
      else if Ascii.eqb c DQUOTE then Ok (set_state r IN_QUOTED_FIELD)
      else if Ascii.eqb c COMMA then Ok (parse_save_field r START_FIELD)
      else Ok (parse_add_char r c IN_FIELD)
  | START_FIELD =>
      if is_newline c then Ok (parse_save_field r EAT_CRNL)
      else if Ascii.eqb c DQUOTE then Ok (set_state r IN_QUOTED_FIELD)
      else if Ascii.eqb c COMMA then Ok (parse_save_field r START_FIELD)
      else Ok (parse_add_char r c IN_FIELD)
  | IN_FIELD =>
      if is_newline c then Ok (parse_save_field r EAT_CRNL)
      else if Ascii.eqb c COMMA then Ok (parse_save_field r START_FIELD)
      else Ok (parse_add_char r c IN_FIELD)
  | IN_QUOTED_FIELD =>
      if Ascii.eqb c DQUOTE then Ok (set_state r QUOTE_IN_QUOTED_FIELD)
      else Ok (parse_add_char r c IN_QUOTED_FIELD)
  | QUOTE_IN_QUOTED_FIELD =>
      if Ascii.eqb c DQUOTE then Ok (parse_add_char r c IN_QUOTED_FIELD)
      else if Ascii.eqb c COMMA then Ok (parse_save_field r START_FIELD)
      else if is_newline c then Ok (parse_save_field r EAT_CRNL)
      else Ok (parse_add_char r c IN_FIELD)
  | EAT_CRNL =>
      if is_newline c then Ok r
      else Raise CsvError   (* new-line character seen in unquoted field *)
  end.

(** The step at the end of a line. *)
Definition process_eol (r : reader) : reader :=
  match state r with
  | START_RECORD => r
  | START_FIELD | IN_FIELD | QUOTE_IN_QUOTED_FIELD => parse_save_field r START_RECORD
  | IN_QUOTED_FIELD => r
  | EAT_CRNL => set_state r START_RECORD
  end.

Fixpoint process_chars (r : reader) (line : string) : result reader :=
  match line with
  | EmptyString => Ok r
  | String c line' => r' ← process_char r c ; process_chars r' line'
  end.

Definition process_line (r : reader) (line : string) : result reader :=
  r' ← process_chars r line ; Ok (process_eol r').

Definition is_start_record (st : parser_state) : bool :=
  match st with START_RECORD => true | _ => false end.

(** At the end of the input a record is still returned when a field is
    being read or a quoted field is open. *)
Definition pending (r : reader) : bool :=
  match field r, state r with
  | String _ _, _ => true
  | _, IN_QUOTED_FIELD => true
  | _, _ => false
  end.

(** The rows the reader yields over the lines of the file; [r] is the
    parser after the lines already taken for the current record. *)
Fixpoint reader_rows (r : reader) (lines : list string) : result (list (list string)) :=
  match lines with
  | [] =>
      if pending r then Ok [fields (parse_save_field r START_RECORD)] else Ok []
  | line :: lines' =>
      r' ← process_line r line ;
      if is_start_record (state r') then
        rows ← reader_rows parse_reset lines' ; Ok (fields r' :: rows)
      else reader_rows r' lines'
  end.

(** [list(csv.reader(file))] for a file opened for reading in text mode. *)
Definition csv_reader (content : string) : result (list (list string)) :=
  reader_rows parse_reset (file_lines (universal_newlines content)).

(** ** The program *)

(** One element of the [timeseriesData] list of the response. *)
Record data_point := mk_point {
  datetime : string;
  value : pyval
}.

(** [l[i]] *)
Definition getitem_list {A} (l : list A) (i : nat) : result A :=
  match l !! i with
  | Some x => Ok x
  | None => Raise IndexError
  end.

(** [d[k]] *)
Definition getitem_dict (d : gmap string pyval) (k : string) : result pyval :=
  match d !! k with
  | Some v => Ok v
  | None => Raise KeyError
  end.

(** [sorted(l)] on strings.  The keys of a dict are distinct, so the
    result does not depend on the order the dict lists them in
    ([sorted_keys_unique] below). *)
Definition sorted (l : list string) : list string := merge_sort String.le l.

(** [data_dict.keys()] *)
Definition keys (d : gmap string pyval) : list string := (map_to_list d).*1.

(** Lines 73-74: [for line in csv.reader(file): data_dict[line[0]] = line[1]] *)
Fixpoint load_rows (data_dict : gmap string pyval) (rows : list (list string))
  : result (gmap string pyval) :=
  match rows with
  | [] => Ok data_dict
  | line :: rows' =>
      k ← getitem_list line 0;
      v ← getitem_list line 1;
      load_rows (<[k := PyStr v]> data_dict) rows'
  end.

(** Lines 69-74 *)
Definition load_table (filename : string) (fs : gmap string string)
  : result (gmap string pyval) :=
  match fs !! filename with
  | Some content => rows ← csv_reader content; load_rows ∅ rows
  | None => Ok ∅
  end.

(** Lines 76-79 *)
Fixpoint merge_points (data_dict : gmap string pyval) (data_json : list data_point)
  : gmap string pyval :=
  match data_json with
  | [] => data_dict
  | data_point :: rest =>
      let date := datetime data_point in
      let val := value data_point in
      merge_points (<[date := val]> data_dict) rest
  end.

(** The list handed to [writer.writerow] at line 85. *)
Definition table_row (date : string) (val : pyval) : list pyval :=
  [PyStr date; val; val; val; val; PyInt 0].

(** Lines 83-85: the text written for the dates in turn. *)
Fixpoint write_rows (data_dict : gmap string pyval) (dates : list string)
  : result string :=
  match dates with
  | [] => Ok EmptyString
  | date :: rest =>
      val ← getitem_dict data_dict date;
      text ← write_rows data_dict rest;
      Ok (writerow (table_row date val) ++ text)
  end.

(** [save_new_data(data_json, filename)]: the file system afterwards, or
    the exception raised (the file system is then as before, since every
    exception the model has is raised before the file is opened for
    writing or, for [KeyError], never). *)
Definition save_new_data (data_json : list data_point) (filename : string)
    (fs : gmap string string) : result (gmap string string) :=
  data_dict ← load_table filename fs;
  let data_dict := merge_points data_dict data_json in
  text ← write_rows data_dict (sorted (keys data_dict));
  Ok (<[filename := text]> fs).

(** *** The date conversion of [process_data_file], lines 96-98 *)

(** [s.index(c)] for a one-character [c] *)
Fixpoint str_index (c : ascii) (s : string) : result nat :=
  match s with
  | EmptyString => Raise ValueError
  | String a s' =>
      if Ascii.eqb a c then Ok 0
      else i ← str_index c s'; Ok (S i)
  end.

(** [s[:n]] *)
Fixpoint slice_to (n : nat) (s : string) : string :=
  match n, s with
  | S n', String a s' => String a (slice_to n' s')
  | _, _ => EmptyString
  end.

(** [s.replace(c, new)] for a one-character [c] *)
Fixpoint str_replace (c : ascii) (new : string) (s : string) : string :=
  match s with
  | EmptyString => EmptyString
  | String a s' =>
      if Ascii.eqb a c then new ++ str_replace c new s'
      else String a (str_replace c new s')
  end.

(** Lines 97-98 for one data point: the new value of its [datetime]. *)
Definition date_key (dt : string) : result string :=
  i ← str_index LETTER_T dt;
  let end_ := i + 1 in
  Ok (str_replace DASH EmptyString (slice_to end_ dt)).

(** Lines 96-98: the loop over the data points. *)
Fixpoint convert_datetimes (data_json : list data_point) : result (list data_point) :=
  match data_json with
  | [] => Ok []
  | data_point :: rest =>
      key ← date_key (datetime data_point);
      rest' ← convert_datetimes rest;
      Ok (mk_point key (value data_point) :: rest')
  end.

(** [process_data_file] from the response on: [data_json] is the list the
    request returned and [out_path] the path built from the folder, the
    coin and the metric. *)
Definition process_data_file (data_json : list data_point) (out_path : string)
    (fs : gmap string string) : result (gmap string string) :=
  data_json' ← convert_datetimes data_json;
  save_new_data data_json' out_path fs.

(** * Definitions for the statements *)

(** ** What is written *)

(** The dict at line 81, when the file is opened for writing. *)
Definition final_table (data_json : list data_point) (filename : string)
    (fs : gmap string string) : result (gmap string pyval) :=
  data_dict ← load_table filename fs;
  Ok (merge_points data_dict data_json).

(** The entries of a dict by ascending key. *)
Definition sorted_items (d : gmap string pyval) : list (string * pyval) :=
  omap (λ date, (date,.) <$> d !! date) (sorted (keys d)).

(** The rows handed to [writer.writerow], in the order they are written. *)
Definition written_rows (d : gmap string pyval) : list (list pyval) :=
  (λ kv, table_row kv.1 kv.2) <$> sorted_items d.

(** The text the writer appends for a list of rows. *)
Definition rows_text (rows : list (list pyval)) : string :=
  foldr (λ row text, writerow row ++ text) EmptyString rows.

(** The six fields of a row with their delimiters, before the line
    terminator: the date, the value four times, and 0. *)
Definition row_line (date val : string) : string :=
  quote_field date ++ String COMMA (
  quote_field val ++ String COMMA (
  quote_field val ++ String COMMA (
  quote_field val ++ String COMMA (
  quote_field val ++ String COMMA "0")))).

(** The text of a table: one line per entry, each ended by CR LF. *)
Definition table_text (items : list (string * pyval)) : string :=
  foldr (λ kv text, row_line kv.1 (field_text kv.2) ++ lineterminator ++ text)
        EmptyString items.

(** The strict lexicographic order of [str]. *)
Definition str_lt (s t : string) : Prop := String.compare s t = Lt.

(** ** What is merged and loaded *)

(** The value of the last incoming record with a given key. *)
Definition last_value (data_json : list data_point) (k : string) : option pyval :=
  value <$> last (filter (λ p, datetime p = k) data_json).

(** What the load loop builds from the first two fields of the rows. *)
Definition table_of (kvs : list (string * string)) : gmap string pyval :=
  foldl (λ d kv, <[kv.1 := PyStr kv.2]> d) ∅ kvs.

(** A row given by its first field, its second field and the others. *)
Definition row_with (e : string * string * list string) : list string :=
  e.1.1 :: e.1.2 :: e.2.

(** ** Predicates on characters *)

Fixpoint all_chars (P : ascii → bool) (s : string) : bool :=
  match s with
  | EmptyString => true
  | String c s' => P c && all_chars P s'
  end.

Definition is_digit (c : ascii) : bool :=
  (48 <=? nat_of_ascii c)%nat && (nat_of_ascii c <=? 57)%nat.

Definition no_cr (s : string) : bool :=
  all_chars (λ c, negb (Ascii.eqb c CR)) s.

(** ** The reader as one pass over the text *)

(** The record returned when the input ends. *)
Definition at_eof (r : reader) : list (list string) :=
  if pending r then [fields (parse_save_field r START_RECORD)] else [].

Definition nonempty (s : string) : bool :=
  match s with EmptyString => false | _ => true end.

(** [reader_rows] without the split into lines: [r] is the parser within
    the current line and [mid] tells whether that line has characters.
    [reader_rows_run] below shows the two agree. *)
Fixpoint run (r : reader) (mid : bool) (s : string) : result (list (list string)) :=
  match s with
  | EmptyString =>
      if mid then
        let r' := process_eol r in
        if is_start_record (state r') then Ok [fields r'] else Ok (at_eof r')
      else Ok (at_eof r)
  | String c s' =>
      r1 ← process_char r c;
      if Ascii.eqb c LF then
        let r2 := process_eol r1 in
        if is_start_record (state r2) then
          rows ← run parse_reset false s'; Ok (fields r2 :: rows)
        else run r2 false s'
      else run r1 true s'
  end.

(** The parser stands before a field. *)
Definition at_field_start (r : reader) : Prop :=
  (state r = START_RECORD ∨ state r = START_FIELD) ∧ field r = EmptyString.

Definition reader_no_cr (r : reader) : Prop :=
  Forall (λ f, no_cr f = true) (fields r) ∧ no_cr (field r) = true.

Definition rows_no_cr (rows : list (list string)) : Prop :=
  Forall (Forall (λ f, no_cr f = true)) rows.

(** ** A table written and loaded again *)

(** The fields a row has when it is read back. *)
Definition read_back (kv : string * pyval) : list string :=
  let date := universal_newlines kv.1 in
  let val := universal_newlines (field_text kv.2) in
  [date; val; val; val; val; "0"].

(** A table as it comes out of a file: keys and values are strings without
    carriage return. *)
Definition normalized (d : gmap string pyval) : Prop :=
  ∀ k v, d !! k = Some v → no_cr k = true ∧ ∃ s, v = PyStr s ∧ no_cr s = true.



(** Records whose keys and values hold no carriage return. *)
Definition records_plain (data_json : list data_point) : Prop :=
  Forall (λ p, no_cr (datetime p) = true ∧ no_cr (field_text (value p)) = true)
         data_json.



(** ** Example inputs *)

Definition example_file : string := "BTC_DEV_ACTIVITY.csv".

Definition example_records : list data_point :=
  [mk_point "20230101" (PyStr "9"); mk_point "20230102" (PyFloat "3.5")].

Definition example_fs : gmap string string :=
  {[ example_file := "20230101,5,5,5,5,0" ++ lineterminator ]}.


(** A second row with four fields. *)
Definition example_content_wide : string :=
  "20230101,5,5,5,5,0" ++ lineterminator ++ "20230102,3,x,y" ++ lineterminator.

(** A second row with one field. *)
Definition example_content_short : string :=
  "20230101,5,5,5,5,0" ++ lineterminator ++ "20230102" ++ lineterminator.

(** * The rest of the module *)

(** [CoinInfo], lines 12-18 *)
Record CoinInfo := mk_coin {
  slug : string;
  data_filename_prefix : string
}.

(** Lines 22-31 *)
Definition METRICS : list string :=
  [ "sentiment_negative_total";
    "github_activity";
    "dev_activity";
    "sentiment_positive_total";
    "sentiment_balance_total";
    "social_volume_total";
    "social_dominance_total";
    "unique_social_volume_total_1h" ].

(** Lines 36-45 *)
Definition COIN_INFOS : list CoinInfo :=
  [ mk_coin "bitcoin" "btc"; mk_coin "ethereum" "eth" ].

(** [c.upper()] for an ASCII character. *)
Definition upper_char (c : ascii) : ascii :=
  let n := nat_of_ascii c in
  if (97 <=? n)%nat && (n <=? 122)%nat then ascii_of_nat (n - 32) else c.

(** [s.upper()] on ASCII text, which the prefixes and metric names of the
    module are.  (Python also maps letters outside ASCII; the properties
    below that depend on it are stated for ASCII text.) *)
Fixpoint upper (s : string) : string :=
  match s with
  | EmptyString => EmptyString
  | String c s' => String (upper_char c) (upper s')
  end.

Definition SEP : ascii := ascii_of_nat 47.

(** [s.startswith(sep)] and [s.endswith(sep)] for the one-character
    separator of POSIX paths. *)
Definition startswith_sep (s : string) : bool :=
  match s with
  | String c _ => Ascii.eqb c SEP
  | EmptyString => false
  end.

Fixpoint endswith_sep (s : string) : bool :=
  match s with
  | EmptyString => false
  | String c EmptyString => Ascii.eqb c SEP
  | String _ s' => endswith_sep s'
  end.

(** [os.path.join(a, b)] of posixpath: an absolute [b] replaces [a]; a
    separator is put between the two unless [a] is empty or ends with
    one. *)
Definition path_join (a b : string) : string :=
  if startswith_sep b then b
  else if negb (nonempty a) || endswith_sep a then a ++ b
  else a ++ String SEP b.

(** Line 101: [(coin_info.data_filename_prefix + "_" + metric).upper() + ".csv"] *)
Definition data_filename (coin_info : CoinInfo) (metric : string) : string :=
  upper (data_filename_prefix coin_info ++ "_" ++ metric) ++ ".csv".

(** Lines 101-102 *)
Definition out_path (data_folder : string) (coin_info : CoinInfo) (metric : string)
  : string :=
  path_join data_folder (data_filename coin_info metric).

(** What the program acts on: the files, and the lines printed so far. *)
Record world := mk_world {
  files : gmap string string;
  stdout : list string
}.

(** The line [print("updated", coin_info.slug, metric)] writes. *)
Definition updated_line (coin_info : CoinInfo) (metric : string) : string :=
  "updated " ++ slug coin_info ++ " " ++ metric.

(** [process_data_file(data_folder, coin_info, metric, to_date)], lines
    88-105.  The outside world is [api]: what lines 90-94 obtain, the list
    under data, getMetric, timeseriesData of the response to the request
    made of the metric, the slug and [to_date], or the exception raised on
    the way.  An exception leaves the files and the output as they were:
    all of them come before the file is opened for writing. *)
Definition process_data_file_full
    (api : string → string → string → result (list data_point))
    (data_folder : string) (coin_info : CoinInfo) (metric to_date : string)
    (w : world) : result world :=
  data_json ← api metric (slug coin_info) to_date;
  fs ← process_data_file data_json (out_path data_folder coin_info metric) (files w);
  Ok (mk_world fs (stdout w ++ [updated_line coin_info metric])).

(** How a run of [main] ends: normally, or with an exception that stops
    it, in either case with the files and output reached. *)
Inductive outcome : Type :=
| Done (w : world)
| Failed (e : exn) (w : world).

(** The inner loop of [main], line 126. *)
Fixpoint for_metrics
    (api : string → string → string → result (list data_point))
    (data_folder to_date : string) (slug_info : CoinInfo)
    (metrics : list string) (w : world) : outcome :=
  match metrics with
  | [] => Done w
  | metric :: rest =>
      match process_data_file_full api data_folder slug_info metric to_date w with
      | Ok w' => for_metrics api data_folder to_date slug_info rest w'
      | Raise e => Failed e w
      end
  end.

(** The outer loop of [main], line 125. *)
Fixpoint for_coins
    (api : string → string → string → result (list data_point))
    (data_folder to_date : string) (coins : list CoinInfo) (metrics : list string)
    (w : world) : outcome :=
  match coins with
  | [] => Done w
  | slug_info :: rest =>
      match for_metrics api data_folder to_date slug_info metrics w with
      | Done w' => for_coins api data_folder to_date rest metrics w'
      | Failed e w' => Failed e w'
      end
  end.

(** [main()], lines 117-127, from the parsed folder on.  [to_date] is the
    day of the run followed by T23:59:59Z.  Folders are not part of the
    file system modelled, so the creation of the folder is not either. *)
Definition main
    (api : string → string → string → result (list data_point))
    (data_folder to_date : string) (w : world) : outcome :=
  for_coins api data_folder to_date COIN_INFOS METRICS w.

(** ** Definitions for the further properties *)

(** The world an outcome ends with. *)
Definition final_world (o : outcome) : world :=
  match o with
  | Done w => w
  | Failed _ w => w
  end.

(** The pairs of coin and metric in the order the loops take them. *)
Definition pairs_of (coins : list CoinInfo) (metrics : list string)
  : list (CoinInfo * string) :=
  coin ← coins; (λ metric, (coin, metric)) <$> metrics.

(** The loops as one pass over the pairs. *)
Fixpoint for_pairs
    (api : string → string → string → result (list data_point))
    (data_folder to_date : string) (pairs : list (CoinInfo * string))
    (w : world) : outcome :=
  match pairs with
  | [] => Done w
  | (coin, metric) :: rest =>
      match process_data_file_full api data_folder coin metric to_date w with
      | Ok w' => for_pairs api data_folder to_date rest w'
      | Raise e => Failed e w
      end
  end.

(** The string holds the character. *)
Definition has_char (c : ascii) (s : string) : bool :=
  negb (all_chars (λ a, negb (Ascii.eqb a c)) s).

Definition is_upper_letter (c : ascii) : bool :=
  (65 <=? nat_of_ascii c)%nat && (nat_of_ascii c <=? 90)%nat.

Definition UNDERSCORE : ascii := ascii_of_nat 95.

(** An ASCII character that is not an upper-case letter. *)
Definition is_ascii_not_upper (c : ascii) : bool :=
  (nat_of_ascii c <? 128)%nat && negb (is_upper_letter c).

(** The number a string of decimal digits writes, after the digits that
    gave [acc]. *)
Fixpoint digits_value_from (acc : N) (s : string) : N :=
  match s with
  | EmptyString => acc
  | String c s' => digits_value_from (10 * acc + (N_of_ascii c - 48)) s'
  end.

Definition digits_value (s : string) : N := digits_value_from 0 s.

(** The path a pair of coin and metric is written to. *)
Definition pair_path (data_folder : string) (pair : CoinInfo * string) : string :=
  out_path data_folder pair.1 pair.2.

(** The line printed for a pair. *)
Definition pair_line (pair : CoinInfo * string) : string :=
  updated_line pair.1 pair.2.

(** * Properties *)

(** ** Strings *)

Section strings.
Implicit Types (s t u : string) (c : ascii).

Lemma app_cons c s t : String c s ++ t = String c (s ++ t).
Proof. reflexivity. Qed.

Lemma app_empty_l s : EmptyString ++ s = s.
Proof. reflexivity. Qed.

Lemma app_empty_r s : s ++ EmptyString = s.
Proof. induction s as [|c s IH]; [done|]. by rewrite app_cons, IH. Qed.

Lemma app_assoc' s t u : (s ++ t) ++ u = s ++ (t ++ u).
Proof. induction s as [|c s IH]; [done|]. by rewrite !app_cons, IH. Qed.

Lemma app_snoc s c t : (s ++ String c EmptyString) ++ t = s ++ String c t.
Proof. by rewrite app_assoc'. Qed.
End strings.

Lemma str_lt_le_ne s t : str_lt s t ↔ String.le s t ∧ s ≠ t.
Proof.
  unfold str_lt, String.le, String.leb. split.
  - intros Hlt. rewrite Hlt. split; [done|].
    intros ->. assert (String.le t t) as Hr by done.
    pose proof (String.compare_antisym t t) as Ha.
    rewrite Hlt in Ha. discriminate.
  - intros [Hle Hne]. destruct (String.compare s t) eqn:Hc; [|done|done].
    by apply String.compare_eq_iff in Hc.
Qed.

(** ** [sorted] and the keys of a dict *)

Lemma sorted_perm l : sorted l ≡ₚ l.
Proof. apply merge_sort_Permutation. Qed.

Lemma sorted_elem_of l k : k ∈ sorted l ↔ k ∈ l.
Proof. by rewrite sorted_perm. Qed.

Lemma sorted_le l : StronglySorted String.le (sorted l).
Proof. apply StronglySorted_merge_sort; apply _. Qed.

(** Any two listings of the same distinct keys sort to the same list. *)
Lemma sorted_keys_unique l1 l2 : l1 ≡ₚ l2 → sorted l1 = sorted l2.
Proof.
  intros Hp. apply (StronglySorted_unique String.le); [apply sorted_le..|].
  by rewrite !sorted_perm.
Qed.

Lemma StronglySorted_strict l :
  NoDup l → StronglySorted String.le l → StronglySorted str_lt l.
Proof.
  induction 2 as [|k l Hs IH Hall]; [constructor|].
  apply NoDup_cons in H as [Hk Hnd]. constructor; [by apply IH|].
  rewrite Forall_forall in Hall |- *. intros k' Hk'.
  apply str_lt_le_ne. split; [by apply Hall|]. by intros ->.
Qed.

Lemma keys_elem_of (d : gmap string pyval) k : k ∈ keys d ↔ is_Some (d !! k).
Proof.
  unfold keys. rewrite list_elem_of_fmap. split.
  - intros [[k' v] [-> Hin]]. apply elem_of_map_to_list in Hin. by exists v.
  - intros [v Hv]. exists (k, v). split; [done|]. by apply elem_of_map_to_list.
Qed.

Lemma keys_NoDup (d : gmap string pyval) : NoDup (keys d).
Proof. apply NoDup_fst_map_to_list. Qed.

Lemma sorted_keys_NoDup (d : gmap string pyval) : NoDup (sorted (keys d)).
Proof. rewrite sorted_perm. apply keys_NoDup. Qed.

Lemma sorted_keys_lt (d : gmap string pyval) : StronglySorted str_lt (sorted (keys d)).
Proof. apply StronglySorted_strict; [apply sorted_keys_NoDup|apply sorted_le]. Qed.

Lemma sorted_keys_elem_of (d : gmap string pyval) k :
  k ∈ sorted (keys d) ↔ is_Some (d !! k).
Proof. by rewrite sorted_elem_of, keys_elem_of. Qed.

(** ** The table in memory and the rows written *)

Lemma sorted_items_fst (d : gmap string pyval) :
  (sorted_items d).*1 = sorted (keys d).
Proof.
  unfold sorted_items.
  assert (Forall (λ k, is_Some (d !! k)) (sorted (keys d))) as Hall.
  { apply Forall_forall. intros k. by rewrite sorted_keys_elem_of. }
  induction Hall as [|k l [v Hv] _ IH]; [done|].
  csimpl. rewrite Hv. csimpl. by rewrite IH.
Qed.

Lemma sorted_items_elem_of (d : gmap string pyval) k v :
  (k, v) ∈ sorted_items d ↔ d !! k = Some v.
Proof.
  unfold sorted_items. rewrite list_elem_of_omap. split.
  - intros (k' & _ & Heq). destruct (d !! k') eqn:Hk'; by simplify_eq/=.
  - intros Hv. exists k. split; [apply sorted_keys_elem_of; eauto|].
    by rewrite Hv.
Qed.


Lemma write_rows_ok (d : gmap string pyval) dates :
  Forall (λ k, is_Some (d !! k)) dates →
  write_rows d dates =
    Ok (rows_text ((λ kv, table_row kv.1 kv.2) <$>
                   omap (λ date, (date,.) <$> d !! date) dates)).
Proof.
  induction 1 as [|k l [v Hv] _ IH]; [done|].
  csimpl. unfold getitem_dict. rewrite Hv. csimpl. by rewrite IH.
Qed.

Lemma write_rows_sorted_keys (d : gmap string pyval) :
  write_rows d (sorted (keys d)) = Ok (rows_text (written_rows d)).
Proof.
  apply write_rows_ok, Forall_forall. intros k. by rewrite sorted_keys_elem_of.
Qed.

(** [save_new_data] writes the rows of the final table, and fails only
    where loading fails. *)
Lemma save_new_data_final data_json filename fs :
  save_new_data data_json filename fs =
    d ← final_table data_json filename fs;
    Ok (<[filename := rows_text (written_rows d)]> fs).
Proof.
  unfold save_new_data, final_table.
  destruct (load_table filename fs) as [A|e]; [|done]. simpl.
  by rewrite write_rows_sorted_keys.
Qed.

Lemma save_new_data_ok data_json filename fs A :
  load_table filename fs = Ok A →
  save_new_data data_json filename fs =
    Ok (<[filename := rows_text (written_rows (merge_points A data_json))]> fs).
Proof. intros HA. rewrite save_new_data_final. unfold final_table. by rewrite HA. Qed.

Lemma save_new_data_raise data_json filename fs e :
  load_table filename fs = Raise e →
  save_new_data data_json filename fs = Raise e.
Proof. intros HA. rewrite save_new_data_final. unfold final_table. by rewrite HA. Qed.

(** ** Merging *)

Lemma merge_points_lookup data_json (d : gmap string pyval) k :
  merge_points d data_json !! k =
    match last_value data_json k with
    | Some v => Some v
    | None => d !! k
    end.
Proof.
  revert d. induction data_json as [|p l IH]; intros d; [done|].
  simpl. rewrite IH. unfold last_value. rewrite filter_cons.
  destruct (decide (datetime p = k)) as [<-|Hne].
  - rewrite last_cons. destruct (last (filter _ l)); simpl; [done|].
    by rewrite lookup_insert_eq.
  - destruct (last (filter _ l)); simpl; [done|]. by rewrite lookup_insert_ne.
Qed.

Lemma last_value_None data_json k :
  last_value data_json k = None ↔ k ∉ datetime <$> data_json.
Proof.
  unfold last_value. rewrite fmap_None, last_None, list_elem_of_fmap. split.
  - intros Hnil (p & -> & Hin).
    assert (p ∈ filter (λ p0, datetime p0 = datetime p) data_json) as Hp
      by (by apply list_elem_of_filter).
    rewrite Hnil in Hp. by apply not_elem_of_nil in Hp.
  - intros Hno. induction data_json as [|p l IH]; [done|].
    rewrite filter_cons. destruct (decide (datetime p = k)) as [<-|Hne].
    + exfalso. apply Hno. exists p. split; [done|]. apply list_elem_of_here.
    + apply IH. intros (q & -> & Hq). apply Hno. exists q. split; [done|].
      by apply list_elem_of_further.
Qed.

Lemma last_value_Some_elem_of data_json k v :
  last_value data_json k = Some v → mk_point k v ∈ data_json.
Proof.
  unfold last_value. intros ([k' v'] & Hlast & ?)%fmap_Some. simplify_eq/=.
  apply last_Some_elem_of, list_elem_of_filter in Hlast as [? ?].
  by simplify_eq/=.
Qed.

(** The keys of the merged table do not depend on the order of the
    records. *)
Lemma merge_points_keys_perm (A : gmap string pyval) l1 l2 :
  l1 ≡ₚ l2 → keys (merge_points A l1) ≡ₚ keys (merge_points A l2).
Proof.
  intros Hperm. apply NoDup_Permutation; [apply keys_NoDup..|].
  intros k. rewrite !keys_elem_of, !merge_points_lookup.
  assert (last_value l1 k = None ↔ last_value l2 k = None) as Hnone.
  { rewrite !last_value_None. by rewrite Hperm. }
  destruct (last_value l1 k) eqn:H1, (last_value l2 k) eqn:H2; try done.
  - by apply proj2 in Hnone; specialize (Hnone eq_refl).
  - by apply proj1 in Hnone; specialize (Hnone eq_refl).
Qed.

(** ** Loading *)

Lemma load_rows_row_with d (entries : list (string * string * list string)) :
  load_rows d (row_with <$> entries) =
    Ok (foldl (λ d kv, <[kv.1 := PyStr kv.2]> d) d (fst <$> entries)).
Proof.
  revert d. induction entries as [|[[k v] rest] l IH]; intros d; [done|].
  csimpl. by rewrite IH.
Qed.

Lemma load_rows_short d rows :
  Exists (λ row, length row < 2) rows → load_rows d rows = Raise IndexError.
Proof.
  intros Hex. revert d. induction Hex as [row l Hrow|row l _ IH]; intros d.
  - destruct row as [|k [|v rest]]; [done|done|simpl in Hrow; lia].
  - destruct row as [|k [|v rest]]; [done|done|]. csimpl. apply IH.
Qed.

(** A fold of inserts holds, for a key, what the last insert on it gave. *)
Lemma foldl_insert_last {X} (g : X → string) (h : X → pyval)
    (d0 : gmap string pyval) (l : list X) k :
  foldl (λ d x, <[g x := h x]> d) d0 l !! k =
    match last (filter (λ x, g x = k) l) with
    | Some x => Some (h x)
    | None => d0 !! k
    end.
Proof.
  revert d0. induction l as [|x l IH]; intros d0; [done|].
  cbn [foldl]. rewrite IH, filter_cons.
  destruct (decide (g x = k)) as [<-|Hne].
  - rewrite last_cons. destruct (last (filter _ l)); [done|].
    by rewrite lookup_insert_eq.
  - destruct (last (filter _ l)); [done|]. by rewrite lookup_insert_ne.
Qed.

Lemma table_of_lookup (kvs : list (string * string)) k :
  table_of kvs !! k = (λ kv, PyStr kv.2) <$> last (filter (λ kv, kv.1 = k) kvs).
Proof.
  unfold table_of. rewrite (foldl_insert_last fst (λ kv, PyStr kv.2)).
  by destruct (last _).
Qed.

(** ** The date conversion *)

Lemma is_digit_not_T c : is_digit c = true → Ascii.eqb c LETTER_T = false.
Proof.
  intros Hd. apply Ascii.eqb_neq. intros ->. by vm_compute in Hd.
Qed.

Lemma is_digit_not_dash c : is_digit c = true → Ascii.eqb c DASH = false.
Proof.
  intros Hd. apply Ascii.eqb_neq. intros ->. by vm_compute in Hd.
Qed.

Lemma str_index_app c s rest :
  all_chars (λ a, negb (Ascii.eqb a c)) s = true →
  str_index c (s ++ String c rest) = Ok (String.length s).
Proof.
  induction s as [|a s IH]; simpl.
  - intros _. by rewrite Ascii.eqb_refl.
  - intros [Ha Hs]%andb_true_iff.
    apply negb_true_iff in Ha. rewrite Ha, IH by done. done.
Qed.

Lemma slice_to_app s c rest :
  slice_to (String.length s + 1) (s ++ String c rest) = s ++ String c EmptyString.
Proof.
  induction s as [|a s IH]; simpl; [done|]. by rewrite IH.
Qed.

Lemma str_replace_app c new s t :
  str_replace c new (s ++ t) = str_replace c new s ++ str_replace c new t.
Proof.
  induction s as [|a s IH]; simpl; [done|].
  destruct (Ascii.eqb a c); rewrite IH; [by rewrite app_assoc'|done].
Qed.

Lemma str_replace_absent c new s :
  all_chars (λ a, negb (Ascii.eqb a c)) s = true → str_replace c new s = s.
Proof.
  induction s as [|a s IH]; simpl; [done|].
  intros [Ha Hs]%andb_true_iff. apply negb_true_iff in Ha.
  by rewrite Ha, IH.
Qed.

Lemma all_chars_impl (P Q : ascii → bool) s :
  (∀ c, P c = true → Q c = true) → all_chars P s = true → all_chars Q s = true.
Proof.
  intros HPQ. induction s as [|a s IH]; simpl; [done|].
  intros [Ha Hs]%andb_true_iff. by rewrite (HPQ _ Ha), IH.
Qed.

Lemma all_chars_app P s t :
  all_chars P (s ++ t) = all_chars P s && all_chars P t.
Proof.
  induction s as [|a s IH]; simpl; [done|].
  by rewrite IH, andb_assoc.
Qed.

(** The key of a timestamp whose part before the first T is known. *)
Lemma date_key_prefix s rest :
  all_chars (λ a, negb (Ascii.eqb a LETTER_T)) s = true →
  date_key (s ++ String LETTER_T rest) =
    Ok (str_replace DASH EmptyString s ++ String LETTER_T EmptyString).
Proof.
  intros Hs. unfold date_key. rewrite str_index_app by done. simpl.
  by rewrite slice_to_app, str_replace_app.
Qed.

(** The loop over the data points gives each its key and keeps its
    value. *)
Lemma convert_datetimes_Forall2 data_json data_json' :
  Forall2 (λ p p', date_key (datetime p) = Ok (datetime p') ∧
                   value p' = value p) data_json data_json' →
  convert_datetimes data_json = Ok data_json'.
Proof.
  induction 1 as [|p [k v] l l' [Hkey Hval] _ IH]; [done|].
  cbn in Hkey, Hval. subst v. cbn [convert_datetimes]. by rewrite Hkey, IH.
Qed.

(** ** The reader as one pass over the text *)

Lemma process_chars_app r s t :
  process_chars r (s ++ t) = r' ← process_chars r s; process_chars r' t.
Proof.
  revert r. induction s as [|c s IH]; intros r; simpl; [done|].
  destruct (process_char r c) as [r1|e]; simpl; [apply IH|done].
Qed.

Lemma nonempty_snoc s c : nonempty (s ++ String c EmptyString) = true.
Proof. by destruct s. Qed.

Lemma reader_rows_run s : ∀ r0 cur,
  reader_rows r0 (file_lines_from cur s) =
    r ← process_chars r0 cur; run r (nonempty cur) s.
Proof.
  induction s as [|c s IH]; intros r0 cur.
  - destruct cur as [|a cur].
    { cbn. unfold at_eof. by destruct (pending r0). }
    cbn [file_lines_from reader_rows run nonempty]. unfold process_line.
    destruct (process_chars r0 (String a cur)) as [r|e]; [|done].
    cbn. unfold at_eof. destruct (is_start_record _); [done|].
    by destruct (pending _).
  - cbn [file_lines_from run]. destruct (Ascii.eqb c LF) eqn:Hc.
    + apply Ascii.eqb_eq in Hc as ->.
      cbn [reader_rows]. unfold process_line.
      rewrite process_chars_app.
      destruct (process_chars r0 cur) as [r|e]; [|done]. cbn.
      destruct (process_char r LF) as [r1|e]; [|done]. cbn.
      rewrite (IH parse_reset EmptyString), (IH (process_eol r1) EmptyString).
      done.
    + rewrite IH, process_chars_app, nonempty_snoc.
      destruct (process_chars r0 cur) as [r|e]; [|done]. cbn.
      by destruct (process_char r c).
Qed.

Lemma csv_reader_run content :
  csv_reader content = run parse_reset false (universal_newlines content).
Proof. unfold csv_reader, file_lines. by rewrite reader_rows_run. Qed.

(** ** Reading back what the writer wrote *)

Lemma special_char_false c :
  special_char c = false →
  Ascii.eqb c COMMA = false ∧ Ascii.eqb c DQUOTE = false ∧
  Ascii.eqb c CR = false ∧ Ascii.eqb c LF = false.
Proof.
  unfold special_char. rewrite !orb_false_iff. tauto.
Qed.

Ltac plain_char H :=
  apply special_char_false in H as (?Hcomma & ?Hquote & ?Hcr & ?Hlf).

Lemma run_cons r mid c s :
  run r mid (String c s) =
    r1 ← process_char r c;
    if Ascii.eqb c LF then
      let r2 := process_eol r1 in
      if is_start_record (state r2) then
        rows ← run parse_reset false s; Ok (fields r2 :: rows)
      else run r2 false s
    else run r1 true s.
Proof. reflexivity. Qed.

Lemma eqb_lf_cr : Ascii.eqb LF CR = false.
Proof. reflexivity. Qed.
Lemma eqb_lf_comma : Ascii.eqb LF COMMA = false.
Proof. reflexivity. Qed.
Lemma eqb_lf_dquote : Ascii.eqb LF DQUOTE = false.
Proof. reflexivity. Qed.
Lemma eqb_cr_lf : Ascii.eqb CR LF = false.
Proof. reflexivity. Qed.
Lemma eqb_cr_comma : Ascii.eqb CR COMMA = false.
Proof. reflexivity. Qed.
Lemma eqb_cr_dquote : Ascii.eqb CR DQUOTE = false.
Proof. reflexivity. Qed.
Lemma eqb_comma_lf : Ascii.eqb COMMA LF = false.
Proof. reflexivity. Qed.
Lemma eqb_comma_cr : Ascii.eqb COMMA CR = false.
Proof. reflexivity. Qed.
Lemma eqb_comma_dquote : Ascii.eqb COMMA DQUOTE = false.
Proof. reflexivity. Qed.
Lemma eqb_dquote_lf : Ascii.eqb DQUOTE LF = false.
Proof. reflexivity. Qed.
Lemma eqb_dquote_cr : Ascii.eqb DQUOTE CR = false.
Proof. reflexivity. Qed.
Lemma eqb_dquote_comma : Ascii.eqb DQUOTE COMMA = false.
Proof. reflexivity. Qed.

Create Rewrite HintDb csv_chars.
#[local] Hint Rewrite Ascii.eqb_refl eqb_lf_cr eqb_lf_comma eqb_lf_dquote eqb_cr_lf eqb_cr_comma eqb_cr_dquote eqb_comma_lf eqb_comma_cr eqb_comma_dquote eqb_dquote_lf eqb_dquote_cr eqb_dquote_comma : csv_chars.

Ltac reader_simpl :=
  repeat progress
    (unfold process_char, process_eol, is_newline,
       parse_add_char, parse_save_field, set_state;
     cbn; autorewrite with csv_chars).

(** An unquoted field, once its first character is read. *)
Lemma run_in_field f : ∀ fs fld mid rest,
  needs_quotes f = false →
  run (mk_reader IN_FIELD fs fld) mid (f ++ String COMMA rest) =
    run (mk_reader START_FIELD (fs ++ [fld ++ f]) EmptyString) true rest.
Proof.
  induction f as [|c f IH]; intros fs fld mid rest Hf.
  - by rewrite app_empty_r.
  - simpl in Hf. apply orb_false_iff in Hf as [Hc Hf]. plain_char Hc.
    rewrite app_cons, run_cons. unfold process_char, is_newline. cbn [state].
    rewrite Hlf, Hcr, Hcomma. reader_simpl.
    rewrite (IH _ _ _ _ Hf). by rewrite app_snoc.
Qed.

(** A quoted field, once its opening quote is read. *)
Lemma run_in_quoted_field f : ∀ fs fld mid rest,
  run (mk_reader IN_QUOTED_FIELD fs fld) mid
      (double_quotes f ++ String DQUOTE (String COMMA rest)) =
    run (mk_reader START_FIELD (fs ++ [fld ++ f]) EmptyString) true rest.
Proof.
  induction f as [|c f IH]; intros fs fld mid rest.
  - rewrite app_empty_r. cbn [double_quotes]. rewrite app_empty_l, run_cons.
    by reader_simpl.
  - cbn [double_quotes]. destruct (Ascii.eqb c DQUOTE) eqn:Hq.
    + apply Ascii.eqb_eq in Hq as ->.
      rewrite !app_cons, run_cons. reader_simpl. rewrite IH. by rewrite app_snoc.
    + rewrite app_cons, run_cons. unfold process_char. cbn [state].
      rewrite Hq. reader_simpl. destruct (Ascii.eqb c LF) eqn:Hlf.
      * reader_simpl. rewrite IH. by rewrite app_snoc.
      * rewrite IH. by rewrite app_snoc.
Qed.

(** A field as the writer writes it, followed by the delimiter. *)
Lemma run_quote_field f r mid rest :
  at_field_start r →
  run r mid (quote_field f ++ String COMMA rest) =
    run (mk_reader START_FIELD (fields r ++ [f]) EmptyString) true rest.
Proof.
  destruct r as [st fs fld]. intros [Hst Hfld]. simpl in Hst, Hfld. subst fld.
  unfold quote_field. destruct (needs_quotes f) eqn:Hf.
  - rewrite app_cons, run_cons, app_snoc.
    assert (process_char (mk_reader st fs EmptyString) DQUOTE =
            Ok (mk_reader IN_QUOTED_FIELD fs EmptyString)) as ->.
    { destruct Hst as [-> | ->]; by reader_simpl. }
    reader_simpl. apply (run_in_quoted_field f fs EmptyString).
  - destruct f as [|c f].
    + rewrite app_empty_l, run_cons.
      assert (process_char (mk_reader st fs EmptyString) COMMA =
              Ok (mk_reader START_FIELD (fs ++ [EmptyString]) EmptyString)) as ->.
      { destruct Hst as [-> | ->]; by reader_simpl. }
      by reader_simpl.
    + simpl in Hf. apply orb_false_iff in Hf as [Hc Hf]. plain_char Hc.
      rewrite app_cons, run_cons.
      assert (process_char (mk_reader st fs EmptyString) c =
              Ok (mk_reader IN_FIELD fs (String c EmptyString))) as ->.
      { unfold process_char, is_newline.
        destruct Hst as [-> | ->]; cbn [state]; by rewrite Hlf, Hcr, Hquote, Hcomma. }
      reader_simpl. rewrite Hlf. by rewrite run_in_field.
Qed.

(** ** Newline translation *)

Lemma translate_newlines_no_cr p s : no_cr (translate_newlines p s) = true.
Proof.
  unfold no_cr. revert p. induction s as [|c s IH]; intros p; [done|].
  cbn [translate_newlines].
  destruct (Ascii.eqb c CR) eqn:Hcr; [by cbn; rewrite IH|].
  destruct (Ascii.eqb c LF) eqn:Hlf.
  - destruct p; [apply IH|]. by cbn; rewrite IH.
  - cbn. by rewrite Hcr, IH.
Qed.

Lemma translate_newlines_id s : no_cr s = true → universal_newlines s = s.
Proof.
  unfold no_cr, universal_newlines. induction s as [|c s IH]; [done|].
  cbn. intros [Hc Hs]%andb_true_iff. apply negb_true_iff in Hc.
  rewrite Hc, IH by done. destruct (Ascii.eqb c LF) eqn:Hlf; [|done].
  by apply Ascii.eqb_eq in Hlf as ->.
Qed.

Lemma universal_newlines_no_cr s : no_cr (universal_newlines s) = true.
Proof. apply translate_newlines_no_cr. Qed.


Lemma translate_newlines_app_plain p a c s :
  Ascii.eqb c CR = false → Ascii.eqb c LF = false →
  translate_newlines p (a ++ String c s) =
    translate_newlines p a ++ String c (translate_newlines false s).
Proof.
  intros Hcr Hlf. revert p. induction a as [|x a IH]; intros p.
  - rewrite !app_empty_l. cbn. by rewrite Hcr, Hlf.
  - rewrite app_cons. cbn [translate_newlines].
    destruct (Ascii.eqb x CR); [by rewrite IH|].
    destruct (Ascii.eqb x LF); [|by rewrite IH].
    destruct p; by rewrite IH.
Qed.

Lemma translate_newlines_double_quotes p f :
  translate_newlines p (double_quotes f) = double_quotes (translate_newlines p f).
Proof.
  revert p. induction f as [|c f IH]; intros p; [done|].
  cbn [double_quotes translate_newlines].
  destruct (Ascii.eqb c DQUOTE) eqn:Hq.
  - apply Ascii.eqb_eq in Hq as ->. cbn. autorewrite with csv_chars.
    by rewrite IH.
  - cbn [translate_newlines]. destruct (Ascii.eqb c CR) eqn:Hcr.
    { cbn. autorewrite with csv_chars. by rewrite IH. }
    destruct (Ascii.eqb c LF) eqn:Hlf.
    + destruct p; [apply IH|]. cbn. autorewrite with csv_chars. by rewrite IH.
    + cbn. by rewrite Hq, IH.
Qed.

Lemma needs_quotes_universal_newlines f :
  needs_quotes (universal_newlines f) = needs_quotes f.
Proof.
  unfold universal_newlines. induction f as [|c f IH]; [done|].
  cbn [translate_newlines needs_quotes]. unfold special_char.
  destruct (Ascii.eqb c CR) eqn:Hcr.
  { cbn. autorewrite with csv_chars. cbn. by rewrite !orb_true_r. }
  destruct (Ascii.eqb c LF) eqn:Hlf.
  { cbn. autorewrite with csv_chars. cbn. by rewrite !orb_true_r. }
  cbn. unfold special_char. by rewrite Hcr, Hlf, IH.
Qed.

Lemma needs_quotes_no_cr f : needs_quotes f = false → no_cr f = true.
Proof.
  unfold no_cr. induction f as [|c f IH]; [done|]. cbn.
  intros [Hc Hf]%orb_false_iff. plain_char Hc. by rewrite Hcr, IH.
Qed.

(** Translation goes through a written field and leaves its quoting as
    it is. *)
Lemma universal_newlines_quote_field f rest :
  universal_newlines (quote_field f ++ String COMMA rest) =
    quote_field (universal_newlines f) ++ String COMMA (universal_newlines rest).
Proof.
  unfold quote_field. rewrite needs_quotes_universal_newlines.
  destruct (needs_quotes f) eqn:Hf.
  - rewrite !app_cons, !app_snoc. unfold universal_newlines.
    cbn [translate_newlines]. autorewrite with csv_chars.
    rewrite translate_newlines_app_plain by done.
    rewrite translate_newlines_double_quotes.
    cbn [translate_newlines]. by autorewrite with csv_chars.
  - rewrite (translate_newlines_id f) by by apply needs_quotes_no_cr.
    unfold universal_newlines. rewrite translate_newlines_app_plain by done.
    fold (universal_newlines f).
    by rewrite (translate_newlines_id f) by by apply needs_quotes_no_cr.
Qed.

(** ** The text of a row *)

Ltac string_assoc :=
  repeat first [rewrite app_assoc' | rewrite app_cons | rewrite app_empty_l].

Lemma app_cons_nonempty s c t : ∃ a u, s ++ String c t = String a u.
Proof. destruct s as [|a s]; [by exists c, t|]. by exists a, (s ++ String c t). Qed.

Lemma writerow_table_row date val :
  writerow (table_row date val) =
    row_line date (field_text val) ++ lineterminator.
Proof.
  unfold writerow, table_row. cbn [fmap list_fmap join_fields].
  change (field_text (PyStr date)) with date.
  change (quote_field (field_text (PyInt 0))) with "0".
  fold (row_line date (field_text val)).
  destruct (row_line date (field_text val)) eqn:Hline; [|done].
  unfold row_line in Hline.
  destruct (app_cons_nonempty (quote_field date) COMMA
    (quote_field (field_text val) ++ String COMMA (
     quote_field (field_text val) ++ String COMMA (
     quote_field (field_text val) ++ String COMMA (
     quote_field (field_text val) ++ String COMMA "0"))))) as (a & u & Hau).
  rewrite Hau in Hline. discriminate.
Qed.

Lemma row_line_app date val rest :
  row_line date val ++ rest =
    quote_field date ++ String COMMA (
    quote_field val ++ String COMMA (
    quote_field val ++ String COMMA (
    quote_field val ++ String COMMA (
    quote_field val ++ String COMMA (String "0" rest))))).
Proof. unfold row_line. by string_assoc. Qed.

Lemma universal_newlines_zero_eol rest :
  universal_newlines (String "0" (lineterminator ++ rest)) =
    String "0" (String LF (universal_newlines rest)).
Proof. reflexivity. Qed.

Lemma universal_newlines_row_line date val rest :
  universal_newlines (row_line date val ++ lineterminator ++ rest) =
    row_line (universal_newlines date) (universal_newlines val)
      ++ String LF (universal_newlines rest).
Proof.
  rewrite !row_line_app, !universal_newlines_quote_field.
  by rewrite universal_newlines_zero_eol.
Qed.

Lemma run_row_line date val rest :
  run parse_reset false (row_line date val ++ String LF rest) =
    rows ← run parse_reset false rest;
    Ok ([date; val; val; val; val; "0"] :: rows).
Proof.
  rewrite row_line_app.
  rewrite run_quote_field by (split; [by left|done]).
  do 4 (rewrite run_quote_field by (split; [by right|done])).
  cbn [fields parse_reset app]. rewrite !run_cons.
  change (process_char
    (mk_reader START_FIELD ([date; val; val; val] ++ [val]) EmptyString) "0")
    with (Ok (mk_reader IN_FIELD [date; val; val; val; val] "0")).
  change (Ascii.eqb "0" LF) with false. reader_simpl.
  by destruct (run parse_reset false rest).
Qed.

Lemma csv_reader_rows_text (items : list (string * pyval)) :
  csv_reader (rows_text ((λ kv, table_row kv.1 kv.2) <$> items)) =
    Ok (read_back <$> items).
Proof.
  rewrite csv_reader_run. induction items as [|[k v] items IH]; [done|].
  cbn [fmap list_fmap rows_text foldr fst snd].
  rewrite writerow_table_row, app_assoc', universal_newlines_row_line.
  rewrite run_row_line. fold (rows_text ((λ kv, table_row kv.1 kv.2) <$> items)).
  by rewrite IH.
Qed.


Lemma rows_text_table_text (items : list (string * pyval)) :
  rows_text ((λ kv, table_row kv.1 kv.2) <$> items) = table_text items.
Proof.
  induction items as [|[k v] items IH]; [done|].
  cbn [fmap list_fmap rows_text table_text foldr fst snd].
  rewrite writerow_table_row, app_assoc'. f_equal. f_equal. apply IH.
Qed.

Lemma row_line_plain date val :
  needs_quotes date = false → needs_quotes val = false →
  row_line date val =
    date ++ "," ++ val ++ "," ++ val ++ "," ++ val ++ "," ++ val ++ "," ++ "0".
Proof. intros Hd Hv. unfold row_line, quote_field. by rewrite Hd, Hv. Qed.

(** ** No carriage return reaches the table *)

Lemma no_cr_snoc s c :
  no_cr s = true → Ascii.eqb c CR = false → no_cr (s ++ String c EmptyString) = true.
Proof.
  unfold no_cr. intros Hs Hc. rewrite all_chars_app, Hs. cbn. by rewrite Hc.
Qed.

Lemma process_char_no_cr r c r' :
  process_char r c = Ok r' → Ascii.eqb c CR = false →
  reader_no_cr r → reader_no_cr r'.
Proof.
  destruct r as [st fs fld]. unfold reader_no_cr. cbn. intros Hstep Hc [Hfs Hfld].
  assert (Forall (λ f, no_cr f = true) (fs ++ [fld])) as Hsave.
  { apply Forall_app. split; [done|]. by constructor. }
  pose proof (no_cr_snoc fld c Hfld Hc) as Hadd.
  unfold process_char, parse_add_char, parse_save_field, set_state in Hstep.
  cbn in Hstep.
  destruct st; repeat case_match; simplify_eq/=; done.
Qed.

Lemma process_eol_no_cr r : reader_no_cr r → reader_no_cr (process_eol r).
Proof.
  destruct r as [st fs fld]. unfold reader_no_cr, process_eol. cbn.
  intros [Hfs Hfld].
  assert (Forall (λ f, no_cr f = true) (fs ++ [fld])) as Hsave.
  { apply Forall_app. split; [done|]. by constructor. }
  by destruct st.
Qed.

Lemma at_eof_no_cr r : reader_no_cr r → rows_no_cr (at_eof r).
Proof.
  intros [Hfs Hfld]. unfold at_eof. destruct (pending r); [|constructor].
  repeat constructor. cbn. apply Forall_app. split; [done|]. by constructor.
Qed.

Lemma run_no_cr s : ∀ r mid rows,
  run r mid s = Ok rows → no_cr s = true → reader_no_cr r → rows_no_cr rows.
Proof.
  induction s as [|c s IH]; intros r mid rows Hrun Hs Hr.
  - cbn in Hrun. pose proof (process_eol_no_cr r Hr) as Hr'.
    destruct mid; [destruct (is_start_record _)|]; simplify_eq.
    + repeat constructor. apply Hr'.
    + by apply at_eof_no_cr.
    + by apply at_eof_no_cr.
  - rewrite run_cons in Hrun. unfold no_cr in Hs. cbn in Hs.
    apply andb_true_iff in Hs as [Hc Hs]. apply negb_true_iff in Hc.
    destruct (process_char r c) as [r1|e] eqn:Hstep; [|done]. cbn in Hrun.
    pose proof (process_char_no_cr _ _ _ Hstep Hc Hr) as Hr1.
    pose proof (process_eol_no_cr r1 Hr1) as Hr2.
    destruct (Ascii.eqb c LF); [|by eapply IH].
    destruct (is_start_record _); [|by eapply IH].
    destruct (run parse_reset false s) as [rows'|e] eqn:Hrest; [|done].
    cbn in Hrun. simplify_eq. constructor; [apply Hr2|].
    eapply IH; [done..|]. by split; [constructor|].
Qed.

Lemma csv_reader_no_cr content rows :
  csv_reader content = Ok rows → rows_no_cr rows.
Proof.
  rewrite csv_reader_run. intros Hrun.
  eapply run_no_cr; [done|apply universal_newlines_no_cr|].
  by split; [constructor|].
Qed.

Lemma load_rows_normalized rows : ∀ d A,
  load_rows d rows = Ok A → rows_no_cr rows → normalized d → normalized A.
Proof.
  induction rows as [|row rows IH]; intros d A Hload Hrows Hd.
  - by simplify_eq/=.
  - apply Forall_cons in Hrows as [Hrow Hrows].
    destruct row as [|k [|v rest]]; [done|done|]. cbn in Hload.
    eapply IH; [done..|].
    apply Forall_cons in Hrow as [Hk Hrow]. apply Forall_cons in Hrow as [Hv _].
    intros k' v'. rewrite lookup_insert. case_decide; [|by apply Hd].
    intros; simplify_eq. split; [done|]. by exists v.
Qed.

Lemma load_table_normalized filename fs A :
  load_table filename fs = Ok A → normalized A.
Proof.
  unfold load_table. destruct (fs !! filename) as [content|].
  - destruct (csv_reader content) as [rows|e] eqn:Hrows; [|done]. cbn.
    intros Hload. eapply load_rows_normalized; [done| |done].
    by eapply csv_reader_no_cr.
  - intros; simplify_eq. by intros k v.
Qed.

(** ** The reader never fails on a text-mode file

    [_csv.Error] needs a character after the newline of a line, which the
    line iteration never gives.  So reading all rows first, as [load_table]
    does, raises what the loop over the reader raises. *)





(** ** The table found in a file just written *)








(** Translation can only lower a string in the order of [sorted]: where
    it first changes the string, a CR gives way to a LF. *)
Lemma ascii_compare_refl c : Ascii.compare c c = Eq.
Proof. unfold Ascii.compare. apply N.compare_refl. Qed.









(** ** Rewriting the same file *)








(** With a carriage return in a key the bytes do change on the second
    run: the CR was read back as LF.  The table found is the same. *)
Example carriage_return_rewritten :
  ∃ fs1 fs2,
    save_new_data [mk_point (String CR EmptyString) (PyStr "1")] example_file ∅
      = Ok fs1 ∧
    save_new_data [] example_file fs1 = Ok fs2 ∧
    fs1 !! example_file ≠ fs2 !! example_file ∧
    load_table example_file fs1 = load_table example_file fs2.
Proof.
  do 2 eexists. split; [vm_compute; reflexivity|].
  split; [vm_compute; reflexivity|]. split; [|vm_compute; reflexivity].
  vm_compute. discriminate.
Qed.

(** * The claims *)



(** C2, as the claim states it, fails: the key of the timestamp
    2023-05-04T00:00:00Z is not the 8-digit 20230504. *)
Lemma date_key_not_8_digits :
  date_key "2023-05-04T00:00:00Z" ≠ Ok "20230504".
Proof. vm_compute. discriminate. Qed.

(** C2, amended.  The timestamp is cut after its first T, not before it,
    and the dashes are removed: a timestamp YYYY-MM-DDT... gives the nine
    characters YYYYMMDDT (the date format of Pine Seeds); the timestamp
    2023-05-04T00:00:00Z gives 20230504T.  Every fetched data point goes
    into the merge with this key in place of its timestamp. *)
Theorem date_key_keeps_T Y M D rest :
  all_chars is_digit Y = true →
  all_chars is_digit M = true →
  all_chars is_digit D = true →
  date_key (Y ++ "-" ++ M ++ "-" ++ D ++ "T" ++ rest) = Ok (Y ++ M ++ D ++ "T")
  ∧ date_key "2023-05-04T00:00:00Z" = Ok "20230504T"
  ∧ ∀ data_json data_json' out_path fs,
      Forall2 (λ p p', date_key (datetime p) = Ok (datetime p') ∧
                       value p' = value p) data_json data_json' →
      process_data_file data_json out_path fs =
        save_new_data data_json' out_path fs.
Proof.
  intros HY HM HD. split; [|split; [reflexivity|]].
  - assert (∀ s, all_chars is_digit s = true →
      all_chars (λ a, negb (Ascii.eqb a LETTER_T)) s = true) as HT.
    { intros s. apply all_chars_impl. intros c Hc.
      by rewrite is_digit_not_T. }
    assert (∀ s, all_chars is_digit s = true →
      str_replace DASH EmptyString s = s) as Hdash.
    { intros s Hs. apply str_replace_absent. revert Hs.
      apply all_chars_impl. intros c Hc. by rewrite is_digit_not_dash. }
    replace (Y ++ "-" ++ M ++ "-" ++ D ++ "T" ++ rest)
      with ((Y ++ "-" ++ M ++ "-" ++ D) ++ String LETTER_T rest)
      by (by rewrite !app_assoc').
    rewrite date_key_prefix.
    + rewrite !str_replace_app, (Hdash Y), (Hdash M), (Hdash D) by done.
      change (str_replace DASH EmptyString "-") with EmptyString.
      by rewrite !app_empty_l, !app_assoc'.
    + rewrite !all_chars_app, (HT Y), (HT M), (HT D) by done. reflexivity.
  - intros data_json data_json' out_path fs Hconv.
    unfold process_data_file. by rewrite (convert_datetimes_Forall2 _ _ Hconv).
Qed.

Lemma date_key_keeps_T_witness :
  date_key ("2012" ++ "-" ++ "12" ++ "-" ++ "31" ++ "T" ++ "00:00:00Z")
    = Ok ("2012" ++ "12" ++ "31" ++ "T")
  ∧ date_key "2023-05-04T00:00:00Z" = Ok "20230504T"
  ∧ ∀ data_json data_json' out_path fs,
      Forall2 (λ p p', date_key (datetime p) = Ok (datetime p') ∧
                       value p' = value p) data_json data_json' →
      process_data_file data_json out_path fs =
        save_new_data data_json' out_path fs.
Proof. apply (date_key_keeps_T "2012" "12" "31" "00:00:00Z"); reflexivity. Defined.





(** C4.  The rows written are strictly ascending in the lexicographic
    order of their date-keys, so no date-key is in two rows; and the
    date-keys written, in their order, are the same for every ordering of
    the incoming records. *)
Theorem rows_strictly_ascending data_json filename fs fs1 :
  save_new_data data_json filename fs = Ok fs1 →
  ∃ d,
    final_table data_json filename fs = Ok d ∧
    fs1 = <[filename := rows_text (written_rows d)]> fs ∧
    written_rows d = (λ kv, [PyStr kv.1; kv.2; kv.2; kv.2; kv.2; PyInt 0])
                     <$> sorted_items d ∧
    StronglySorted str_lt (sorted_items d).*1 ∧
    NoDup (sorted_items d).*1 ∧
    ∀ data_json', data_json' ≡ₚ data_json →
      ∃ d', final_table data_json' filename fs = Ok d' ∧
            (sorted_items d').*1 = (sorted_items d).*1.
Proof.
  intros Hsave. destruct (load_table filename fs) as [A|e] eqn:HA.
  - rewrite (save_new_data_ok _ _ _ A HA) in Hsave. simplify_eq.
    exists (merge_points A data_json).
    split; [by unfold final_table; rewrite HA|].
    split; [done|]. split; [done|].
    rewrite sorted_items_fst.
    split; [apply sorted_keys_lt|]. split; [apply sorted_keys_NoDup|].
    intros data_json' Hperm. exists (merge_points A data_json').
    split; [by unfold final_table; rewrite HA|].
    rewrite sorted_items_fst. by apply sorted_keys_unique, merge_points_keys_perm.
  - by rewrite (save_new_data_raise _ _ _ e HA) in Hsave.
Qed.

Lemma rows_strictly_ascending_witness :
  ∃ fs1, save_new_data example_records example_file example_fs = Ok fs1 ∧
  ∃ d,
    final_table example_records example_file example_fs = Ok d ∧
    fs1 = <[example_file := rows_text (written_rows d)]> example_fs ∧
    written_rows d = (λ kv, [PyStr kv.1; kv.2; kv.2; kv.2; kv.2; PyInt 0])
                     <$> sorted_items d ∧
    StronglySorted str_lt (sorted_items d).*1 ∧
    NoDup (sorted_items d).*1 ∧
    ∀ data_json', data_json' ≡ₚ example_records →
      ∃ d', final_table data_json' example_file example_fs = Ok d' ∧
            (sorted_items d').*1 = (sorted_items d).*1.
Proof.
  eexists. split; [vm_compute; reflexivity|].
  apply (rows_strictly_ascending example_records example_file example_fs).
  vm_compute. reflexivity.
Defined.

(** C5.  The file written holds one line per entry of the merged table
    and nothing else, so no header; a line is the date-key, the value four
    times and 0, separated by commas (fields written as they are unless
    they hold a comma, a quote or a newline, which [csv.writer] quotes);
    read back as csv, every row has exactly these six fields. *)
Theorem serialization_format data_json filename fs fs1 :
  save_new_data data_json filename fs = Ok fs1 →
  ∃ d,
    final_table data_json filename fs = Ok d ∧
    (∀ k v, (k, v) ∈ sorted_items d ↔ d !! k = Some v) ∧
    fs1 !! filename = Some (table_text (sorted_items d)) ∧
    (∀ k v, needs_quotes k = false → needs_quotes (field_text v) = false →
       row_line k (field_text v) =
         k ++ "," ++ field_text v ++ "," ++ field_text v ++ "," ++
         field_text v ++ "," ++ field_text v ++ "," ++ "0") ∧
    csv_reader (table_text (sorted_items d)) =
      Ok ((λ kv, let date := universal_newlines kv.1 in
                 let val := universal_newlines (field_text kv.2) in
                 [date; val; val; val; val; "0"]) <$> sorted_items d).
Proof.
  intros Hsave. destruct (load_table filename fs) as [A|e] eqn:HA.
  - rewrite (save_new_data_ok _ _ _ A HA) in Hsave. simplify_eq.
    exists (merge_points A data_json).
    split; [by unfold final_table; rewrite HA|].
    split; [apply sorted_items_elem_of|].
    unfold written_rows. rewrite rows_text_table_text, lookup_insert_eq.
    split; [done|]. split; [intros; by apply row_line_plain|].
    rewrite <-rows_text_table_text. apply csv_reader_rows_text.
  - by rewrite (save_new_data_raise _ _ _ e HA) in Hsave.
Qed.

Lemma serialization_format_witness :
  ∃ fs1, save_new_data example_records example_file example_fs = Ok fs1 ∧
  ∃ d,
    final_table example_records example_file example_fs = Ok d ∧
    (∀ k v, (k, v) ∈ sorted_items d ↔ d !! k = Some v) ∧
    fs1 !! example_file = Some (table_text (sorted_items d)) ∧
    (∀ k v, needs_quotes k = false → needs_quotes (field_text v) = false →
       row_line k (field_text v) =
         k ++ "," ++ field_text v ++ "," ++ field_text v ++ "," ++
         field_text v ++ "," ++ field_text v ++ "," ++ "0") ∧
    csv_reader (table_text (sorted_items d)) =
      Ok ((λ kv, let date := universal_newlines kv.1 in
                 let val := universal_newlines (field_text kv.2) in
                 [date; val; val; val; val; "0"]) <$> sorted_items d).
Proof.
  eexists. split; [vm_compute; reflexivity|].
  apply (serialization_format example_records example_file example_fs).
  vm_compute. reflexivity.
Defined.

(** C6.  Scenario: the file is absent or empty and the records are
    (20230101, 5) and (20230103, 7): the file written holds exactly the
    rows 20230101,5,5,5,5,0 and 20230103,7,7,7,7,0, in this order. *)
Theorem scenario_empty_file filename fs :
  fs !! filename = None ∨ fs !! filename = Some EmptyString →
  save_new_data
    [mk_point "20230101" (PyStr "5"); mk_point "20230103" (PyStr "7")]
    filename fs =
  Ok (<[filename := "20230101,5,5,5,5,0" ++ lineterminator ++
                    "20230103,7,7,7,7,0" ++ lineterminator]> fs).
Proof.
  intros Hfile.
  assert (load_table filename fs = Ok ∅) as Hload.
  { unfold load_table. by destruct Hfile as [-> | ->]. }
  rewrite (save_new_data_ok _ _ _ _ Hload). do 3 f_equal.
Qed.

Lemma scenario_empty_file_witness :
  save_new_data
    [mk_point "20230101" (PyStr "5"); mk_point "20230103" (PyStr "7")]
    example_file ∅ =
  Ok (<[example_file := "20230101,5,5,5,5,0" ++ lineterminator ++
                        "20230103,7,7,7,7,0" ++ lineterminator]> ∅)
  ∧
  save_new_data
    [mk_point "20230101" (PyStr "5"); mk_point "20230103" (PyStr "7")]
    example_file {[ example_file := EmptyString ]} =
  Ok (<[example_file := "20230101,5,5,5,5,0" ++ lineterminator ++
                        "20230103,7,7,7,7,0" ++ lineterminator]>
      {[ example_file := EmptyString ]}).
Proof.
  split.
  - apply (scenario_empty_file example_file ∅). left. reflexivity.
  - apply (scenario_empty_file example_file {[ example_file := EmptyString ]}).
    right. reflexivity.
Defined.

(** C7.  Scenario: the file holds the single row 20230101,5,5,5,5,0
    (with or without a line end) and the records are (20230101, 9) and
    (20230102, 3): the file written holds exactly the rows
    20230101,9,9,9,9,0 and 20230102,3,3,3,3,0, in this order. *)
Theorem scenario_overwrite_and_add filename fs eol :
  eol ∈ [EmptyString; lineterminator; String LF EmptyString] →
  fs !! filename = Some ("20230101,5,5,5,5,0" ++ eol) →
  save_new_data
    [mk_point "20230101" (PyStr "9"); mk_point "20230102" (PyStr "3")]
    filename fs =
  Ok (<[filename := "20230101,9,9,9,9,0" ++ lineterminator ++
                    "20230102,3,3,3,3,0" ++ lineterminator]> fs).
Proof.
  intros Heol Hfile.
  assert (load_table filename fs = Ok {[ "20230101" := PyStr "5" ]}) as Hload.
  { unfold load_table. rewrite Hfile.
    repeat (apply elem_of_cons in Heol as [->|Heol]; [reflexivity|]).
    by apply not_elem_of_nil in Heol. }
  rewrite (save_new_data_ok _ _ _ _ Hload). do 3 f_equal.
Qed.

Lemma scenario_overwrite_and_add_witness :
  save_new_data
    [mk_point "20230101" (PyStr "9"); mk_point "20230102" (PyStr "3")]
    example_file example_fs =
  Ok (<[example_file := "20230101,9,9,9,9,0" ++ lineterminator ++
                        "20230102,3,3,3,3,0" ++ lineterminator]> example_fs).
Proof.
  apply (scenario_overwrite_and_add example_file example_fs lineterminator).
  - apply list_elem_of_further, list_elem_of_here.
  - reflexivity.
Defined.

(** C8.  Load semantics: without a file the table starts empty; with a
    file, every row gives its first field as date-key and its second as
    value (a later row replacing an earlier one with the same key), and
    the fields after the second have no effect on the table. *)
Theorem load_semantics filename fs :
  (fs !! filename = None → load_table filename fs = Ok ∅) ∧
  (∀ content (entries : list (string * string * list string)),
     fs !! filename = Some content →
     csv_reader content = Ok ((λ e, e.1.1 :: e.1.2 :: e.2) <$> entries) →
     load_table filename fs = Ok (table_of (fst <$> entries)) ∧
     ∀ k, table_of (fst <$> entries) !! k =
          (λ kv, PyStr kv.2) <$> last (filter (λ kv, kv.1 = k) (fst <$> entries))).
Proof.
  split.
  - intros Hfile. unfold load_table. by rewrite Hfile.
  - intros content entries Hfile Hrows. split; [|apply table_of_lookup].
    unfold load_table. rewrite Hfile, Hrows. cbn.
    apply (load_rows_row_with ∅ entries).
Qed.

Lemma load_semantics_witness :
  load_table example_file ∅ = Ok ∅ ∧
  load_table example_file {[ example_file := example_content_wide ]} =
    Ok (table_of [("20230101", "5"); ("20230102", "3")]).
Proof.
  split.
  - apply (proj1 (load_semantics example_file ∅)). reflexivity.
  - apply (proj2 (load_semantics example_file
                    {[ example_file := example_content_wide ]})
             example_content_wide
             [("20230101", "5", ["5"; "5"; "5"; "0"]);
              ("20230102", "3", ["x"; "y"])]);
      reflexivity.
Defined.

(** C9.  A row with fewer than two fields in the file makes the load
    raise IndexError: the row is not skipped, padded or repaired, and
    [save_new_data] fails with the file left as it was.  The file with
    the one row 20230101 is such a content. *)
Theorem short_row_raises_IndexError data_json filename fs content rows :
  fs !! filename = Some content →
  csv_reader content = Ok rows →
  Exists (λ row, length row < 2) rows →
  load_table filename fs = Raise IndexError ∧
  save_new_data data_json filename fs = Raise IndexError.
Proof.
  intros Hfile Hrows Hshort.
  assert (load_table filename fs = Raise IndexError) as Hload.
  { unfold load_table. rewrite Hfile, Hrows. cbn. by apply load_rows_short. }
  split; [done|]. by apply save_new_data_raise.
Qed.

Lemma short_row_raises_IndexError_witness :
  load_table example_file {[ example_file := example_content_short ]}
    = Raise IndexError ∧
  save_new_data example_records example_file
    {[ example_file := example_content_short ]} = Raise IndexError.
Proof.
  apply (short_row_raises_IndexError example_records example_file
           {[ example_file := example_content_short ]} example_content_short
           [["20230101"; "5"; "5"; "5"; "5"; "0"]; ["20230102"]]).
  - reflexivity.
  - reflexivity.
  - apply Exists_cons_tl, Exists_cons_hd. cbn. lia.
Defined.

(** * Further properties *)

(** ** When the update fails *)




(** ** The keys of the table written *)

Lemma merge_points_dom data_json (A : gmap string pyval) :
  dom (merge_points A data_json) = dom A ∪ list_to_set (datetime <$> data_json).
Proof.
  revert A. induction data_json as [|p l IH]; intros A.
  - cbn. by rewrite (right_id_L ∅ (∪)).
  - cbn [merge_points]. rewrite IH, dom_insert_L, fmap_cons, list_to_set_cons.
    rewrite (assoc_L (∪)). f_equal. apply (comm_L (∪)).
Qed.

Lemma sorted_items_length (d : gmap string pyval) :
  length (sorted_items d) = size d.
Proof.
  rewrite <-(length_fmap fst), sorted_items_fst, sorted_perm.
  unfold keys. by rewrite length_fmap, length_map_to_list.
Qed.

(** X2.  The update only adds keys: the table written has exactly the
    keys of the table loaded and of the incoming records, one row each,
    so never fewer rows than the file gave keys. *)
Theorem written_keys data_json filename fs A :
  load_table filename fs = Ok A →
  ∃ d, final_table data_json filename fs = Ok d ∧
       dom d = dom A ∪ list_to_set (datetime <$> data_json) ∧
       length (written_rows d) = size (dom d) ∧
       (size (dom A) ≤ length (written_rows d))%nat.
Proof.
  intros HA. exists (merge_points A data_json).
  split; [by unfold final_table; rewrite HA|].
  split; [apply merge_points_dom|].
  assert (length (written_rows (merge_points A data_json)) =
          size (dom (merge_points A data_json))) as Hlen.
  { unfold written_rows. by rewrite length_fmap, sorted_items_length, size_dom. }
  split; [done|]. rewrite Hlen, merge_points_dom.
  apply subseteq_size, union_subseteq_l.
Qed.

Lemma written_keys_witness :
  ∃ d, final_table example_records example_file example_fs = Ok d ∧
       dom d = dom ({[ "20230101" := PyStr "5" ]} : gmap string pyval)
               ∪ list_to_set (datetime <$> example_records) ∧
       length (written_rows d) = size (dom d) ∧
       (size (dom ({[ "20230101" := PyStr "5" ]} : gmap string pyval))
         ≤ length (written_rows d))%nat.
Proof.
  apply (written_keys example_records example_file example_fs
           {[ "20230101" := PyStr "5" ]}).
  vm_compute. reflexivity.
Defined.

(** ** The order of the records *)

Lemma last_value_NoDup data_json p :
  NoDup (datetime <$> data_json) → p ∈ data_json →
  last_value data_json (datetime p) = Some (value p).
Proof.
  intros Hnd Hp. destruct (last_value data_json (datetime p)) as [v|] eqn:Hv.
  - apply last_value_Some_elem_of in Hv.
    apply list_elem_of_lookup in Hv as [i Hi].
    apply list_elem_of_lookup in Hp as [j Hj].
    assert (i = j) as ->.
    { apply (NoDup_lookup (datetime <$> data_json) i j (datetime p) Hnd);
        rewrite list_lookup_fmap.
      - by rewrite Hi.
      - by rewrite Hj. }
    rewrite Hj in Hi. destruct p as [k v']. cbn in *. by simplify_eq.
  - apply last_value_None in Hv. destruct Hv.
    by apply list_elem_of_fmap_2.
Qed.

Lemma merge_points_perm (A : gmap string pyval) l1 l2 :
  NoDup (datetime <$> l2) → l1 ≡ₚ l2 →
  merge_points A l1 = merge_points A l2.
Proof.
  intros Hnd2 Hperm.
  assert (NoDup (datetime <$> l1)) as Hnd1 by by rewrite Hperm.
  apply map_eq. intros k. rewrite !merge_points_lookup.
  destruct (last_value l2 k) as [v|] eqn:H2.
  - apply last_value_Some_elem_of in H2. rewrite <-Hperm in H2.
    by rewrite (last_value_NoDup l1 (mk_point k v) Hnd1 H2 : last_value l1 k = _).
  - apply last_value_None in H2. rewrite <-Hperm in H2.
    apply last_value_None in H2. by rewrite H2.
Qed.

(** X3.  When the incoming records have distinct keys, their order does
    not matter: every permutation of them gives the same result, file
    for file.  (With a key repeated, the last record wins, so it does.) *)
Theorem save_new_data_permutation data_json data_json' filename fs :
  NoDup (datetime <$> data_json) →
  data_json' ≡ₚ data_json →
  save_new_data data_json' filename fs = save_new_data data_json filename fs.
Proof.
  intros Hnd Hperm. rewrite !save_new_data_final. unfold final_table.
  destruct (load_table filename fs) as [A|e]; [|done]. cbn.
  by rewrite (merge_points_perm A data_json' data_json).
Qed.

Lemma save_new_data_permutation_witness :
  save_new_data (reverse example_records) example_file example_fs =
  save_new_data example_records example_file example_fs.
Proof.
  apply (save_new_data_permutation example_records (reverse example_records)
           example_file example_fs).
  - apply (bool_decide_unpack _). vm_compute. exact I.
  - apply reverse_Permutation.
Defined.

(** ** Updates in a row *)




Lemma example_records_plain : records_plain example_records.
Proof. repeat constructor. Qed.


(** ** What a later run finds *)



(** X6.  Whatever the file holds, a table loaded from it has strings
    for values, and no key or value of it holds a carriage return: text
    mode has turned each into a line feed. *)
Theorem loaded_table_strings filename fs A k v :
  load_table filename fs = Ok A →
  A !! k = Some v →
  ∃ s, v = PyStr s ∧ no_cr k = true ∧ no_cr s = true.
Proof.
  intros HA Hv.
  destruct (load_table_normalized _ _ _ HA k v Hv) as (Hk & s & -> & Hs).
  by exists s.
Qed.

Lemma loaded_table_strings_witness :
  ∃ s, PyStr "5" = PyStr s ∧ no_cr "20230101" = true ∧ no_cr s = true.
Proof.
  apply (loaded_table_strings example_file example_fs
           {[ "20230101" := PyStr "5" ]} "20230101" (PyStr "5")).
  - vm_compute. reflexivity.
  - vm_compute. reflexivity.
Defined.

(** ** The date conversion, in full *)

Lemma has_char_cons c a s :
  has_char c (String a s) = Ascii.eqb a c || has_char c s.
Proof. unfold has_char. cbn. by destruct (Ascii.eqb a c). Qed.

Lemma has_char_false c s :
  has_char c s = false ↔ all_chars (λ a, negb (Ascii.eqb a c)) s = true.
Proof. unfold has_char. by rewrite negb_false_iff. Qed.

Lemma str_index_Raise c s e :
  str_index c s = Raise e ↔ e = ValueError ∧ has_char c s = false.
Proof.
  induction s as [|a s IH].
  - cbn. split; [by intros; simplify_eq|by intros [-> _]].
  - cbn [str_index]. rewrite has_char_cons.
    destruct (Ascii.eqb a c); cbn.
    + split; [done|by intros [_ ?]].
    + destruct (str_index c s) as [i|e'] eqn:Hi; cbn.
      * split; [done|]. intros Hno. by apply IH in Hno.
      * split.
        -- intros; simplify_eq. by apply IH.
        -- intros Hno. apply IH in Hno. by simplify_eq.
Qed.

Lemma str_index_Ok c s i :
  str_index c s = Ok i →
  ∃ pre post, s = pre ++ String c post ∧ String.length pre = i ∧
              has_char c pre = false.
Proof.
  revert i. induction s as [|a s IH]; intros i; [done|].
  cbn [str_index]. destruct (Ascii.eqb a c) eqn:Ha.
  - intros; simplify_eq. apply Ascii.eqb_eq in Ha as ->.
    by exists EmptyString, s.
  - destruct (str_index c s) as [j|e] eqn:Hj; [|done]. cbn.
    intros; simplify_eq. destruct (IH j eq_refl) as (pre & post & -> & <- & Hpre).
    exists (String a pre), post. split; [done|]. split; [done|].
    by rewrite has_char_cons, Ha.
Qed.

Lemma str_replace_removes c s :
  has_char c (str_replace c EmptyString s) = false.
Proof.
  induction s as [|a s IH]; [done|]. cbn [str_replace].
  destruct (Ascii.eqb a c) eqn:Ha; [done|]. by rewrite has_char_cons, Ha.
Qed.

Lemma has_char_app c s t : has_char c (s ++ t) = has_char c s || has_char c t.
Proof.
  induction s as [|a s IH]; [done|].
  by rewrite app_cons, !has_char_cons, IH, orb_assoc.
Qed.

(** The conversion of one timestamp fails for want of a T only. *)
Lemma date_key_Raise dt e :
  date_key dt = Raise e ↔ e = ValueError ∧ has_char LETTER_T dt = false.
Proof.
  unfold date_key.
  destruct (str_index LETTER_T dt) as [i|e'] eqn:Hi; cbn.
  - split; [done|]. intros Hno.
    apply (proj2 (str_index_Raise _ _ _)) in Hno. congruence.
  - split.
    + intros; simplify_eq. by apply (proj1 (str_index_Raise _ _ _)).
    + intros Hno. apply (proj2 (str_index_Raise _ _ _)) in Hno. congruence.
Qed.

(** X7.  The key of a timestamp: ValueError, and nothing else, exactly
    when the timestamp holds no T; otherwise the part up to the first T
    with its dashes removed, then T.  The key holds no dash, and what
    follows the first T has no part in it. *)
Theorem date_key_spec dt :
  (∀ e, date_key dt = Raise e ↔ e = ValueError ∧ has_char LETTER_T dt = false) ∧
  (∀ key, date_key dt = Ok key ↔
     ∃ pre post,
       dt = pre ++ String LETTER_T post ∧ has_char LETTER_T pre = false ∧
       key = str_replace DASH EmptyString pre ++ String LETTER_T EmptyString) ∧
  (∀ key, date_key dt = Ok key → has_char DASH key = false).
Proof.
  assert (∀ key, date_key dt = Ok key ↔
     ∃ pre post,
       dt = pre ++ String LETTER_T post ∧ has_char LETTER_T pre = false ∧
       key = str_replace DASH EmptyString pre ++ String LETTER_T EmptyString)
    as Hok.
  { intros key. split.
    - unfold date_key.
      destruct (str_index LETTER_T dt) as [i|e] eqn:Hi; [|done]. cbn.
      destruct (str_index_Ok _ _ _ Hi) as (pre & post & -> & <- & Hpre).
      intros; simplify_eq. exists pre, post. split; [done|]. split; [done|].
      by rewrite slice_to_app, str_replace_app.
    - intros (pre & post & -> & Hpre & ->).
      apply date_key_prefix. by apply has_char_false. }
  split; [|split; [done|]].
  - intros e. apply date_key_Raise.
  - intros key (pre & post & -> & Hpre & ->)%Hok.
    by rewrite has_char_app, str_replace_removes.
Qed.

(** X8.  The conversion of the data points is all or nothing: it gives
    each point its key and keeps its value and its place, or raises
    ValueError as soon as one timestamp holds no T.  [process_data_file]
    then raises ValueError whatever the file holds: the file is not read,
    let alone written. *)
Theorem convert_datetimes_spec data_json :
  (∀ data_json', convert_datetimes data_json = Ok data_json' ↔
     Forall2 (λ p p', date_key (datetime p) = Ok (datetime p') ∧
                      value p' = value p) data_json data_json') ∧
  (∀ e, convert_datetimes data_json = Raise e ↔
     e = ValueError ∧
     Exists (λ p, has_char LETTER_T (datetime p) = false) data_json) ∧
  (Exists (λ p, has_char LETTER_T (datetime p) = false) data_json →
   ∀ path fs, process_data_file data_json path fs = Raise ValueError).
Proof.
  assert (∀ e, convert_datetimes data_json = Raise e ↔
     e = ValueError ∧
     Exists (λ p, has_char LETTER_T (datetime p) = false) data_json) as Hraise.
  { induction data_json as [|p l IH]; intros e.
    - cbn. split; [done|]. intros [_ Hex]. by apply Exists_nil in Hex.
    - cbn [convert_datetimes]. rewrite Exists_cons.
      destruct (date_key (datetime p)) as [key|e'] eqn:Hkey; cbn.
      + assert (has_char LETTER_T (datetime p) ≠ false) as Hp.
        { intros Hno.
          assert (date_key (datetime p) = Raise ValueError) as Hr
            by by apply date_key_Raise.
          congruence. }
        destruct (convert_datetimes l) as [l'|e''] eqn:Hl; cbn.
        * split; [done|]. intros [-> [?|Hex]]; [done|].
          by assert (Ok l' = Raise ValueError) by by apply IH.
        * split.
          -- intros; simplify_eq. destruct (proj1 (IH e) eq_refl) as [-> Hex].
             split; [done|]. by right.
          -- intros [-> [?|Hex]]; [done|]. f_equal.
             assert (Raise e'' = Raise ValueError :> result (list data_point))
               as Heq by by apply IH.
             by simplify_eq.
      + apply date_key_Raise in Hkey as [-> Hno].
        split; [intros; simplify_eq; eauto|by intros [-> _]]. }
  split; [|split; [done|]].
  - intros data_json'. split; [|apply convert_datetimes_Forall2].
    revert data_json'. induction data_json as [|p l IH]; intros l'.
    + cbn. intros; simplify_eq. constructor.
    + cbn [convert_datetimes].
      destruct (date_key (datetime p)) as [key|e'] eqn:Hkey; [|done]. cbn.
      destruct (convert_datetimes l) as [l2|e''] eqn:Hl; [|done]. cbn.
      intros; simplify_eq. constructor; [done|]. apply IH; [|done].
      intros e. split; [done|]. intros [-> Hex].
      assert (convert_datetimes (p :: l) = Raise ValueError) as Hr.
      { apply Hraise. split; [done|]. by apply Exists_cons_tl. }
      cbn in Hr. by rewrite Hkey, Hl in Hr.
  - intros Hex path fs. unfold process_data_file.
    by rewrite (proj2 (Hraise ValueError) (conj eq_refl Hex)).
Qed.

(** ** Empty lines in the file *)






(** ** File names *)

Lemma upper_app s t : upper (s ++ t) = upper s ++ upper t.
Proof.
  induction s as [|c s IH]; [done|].
  rewrite app_cons. cbn [upper]. by rewrite app_cons, IH.
Qed.

Lemma upper_char_cases c :
  let n := nat_of_ascii c in
  ((97 ≤ n ≤ 122)%nat ∧ nat_of_ascii (upper_char c) = (n - 32)%nat) ∨
  (¬ (97 ≤ n ≤ 122)%nat ∧ upper_char c = c).
Proof.
  cbn. unfold upper_char.
  destruct (97 <=? nat_of_ascii c)%nat eqn:H1; cbn;
    [destruct (nat_of_ascii c <=? 122)%nat eqn:H2; cbn|].
  - apply Nat.leb_le in H1, H2. left. split; [lia|].
    apply nat_ascii_embedding. lia.
  - apply Nat.leb_gt in H2. right. split; [lia|done].
  - apply Nat.leb_gt in H1. right. split; [lia|done].
Qed.

Lemma nat_of_ascii_inj c c' : nat_of_ascii c = nat_of_ascii c' → c = c'.
Proof.
  intros Heq. by rewrite <-(ascii_nat_embedding c), <-(ascii_nat_embedding c'), Heq.
Qed.

Lemma is_upper_letter_false c :
  is_upper_letter c = false → ¬ (65 ≤ nat_of_ascii c ≤ 90)%nat.
Proof.
  unfold is_upper_letter. intros H [H1 H2].
  apply Nat.leb_le in H1, H2. by rewrite H1, H2 in H.
Qed.

Lemma upper_char_inj c c' :
  is_upper_letter c = false → is_upper_letter c' = false →
  upper_char c = upper_char c' → c = c'.
Proof.
  intros Hc%is_upper_letter_false Hc'%is_upper_letter_false Heq.
  apply nat_of_ascii_inj.
  destruct (upper_char_cases c) as [[Hn Hu]|[Hn Hu]],
           (upper_char_cases c') as [[Hn' Hu']|[Hn' Hu']].
  - rewrite Heq in Hu. lia.
  - rewrite Heq, Hu' in Hu. lia.
  - rewrite <-Heq, Hu in Hu'. lia.
  - by rewrite <-Hu, <-Hu', Heq.
Qed.

Lemma upper_inj s s' :
  all_chars (λ c, negb (is_upper_letter c)) s = true →
  all_chars (λ c, negb (is_upper_letter c)) s' = true →
  upper s = upper s' → s = s'.
Proof.
  revert s'. induction s as [|c s IH]; intros [|c' s']; try done.
  cbn. intros [Hc Hs]%andb_true_iff [Hc' Hs']%andb_true_iff Heq.
  apply negb_true_iff in Hc, Hc'. simplify_eq.
  f_equal; [by apply upper_char_inj|by apply IH].
Qed.

Lemma upper_char_underscore c :
  Ascii.eqb (upper_char c) UNDERSCORE = Ascii.eqb c UNDERSCORE.
Proof.
  destruct (upper_char_cases c) as [[Hn Hu]|[Hn Hu]]; [|by rewrite Hu].
  transitivity false; [|symmetry]; apply Ascii.eqb_neq; intros Heq.
  - rewrite Heq in Hu. change (nat_of_ascii UNDERSCORE) with 95%nat in Hu. lia.
  - rewrite Heq in Hn. change (nat_of_ascii UNDERSCORE) with 95%nat in Hn. lia.
Qed.

Lemma has_char_upper_underscore s :
  has_char UNDERSCORE (upper s) = has_char UNDERSCORE s.
Proof.
  induction s as [|c s IH]; [done|]. cbn [upper].
  by rewrite !has_char_cons, upper_char_underscore, IH.
Qed.

(** Two texts cut at their first occurrence of a character. *)
Lemma app_first_occurrence c a a' b b' :
  has_char c a = false → has_char c a' = false →
  a ++ String c b = a' ++ String c b' → a = a' ∧ b = b'.
Proof.
  revert a'. induction a as [|x a IH]; intros [|x' a']; cbn.
  - intros _ _ Heq. by simplify_eq.
  - rewrite has_char_cons. intros _ [Hx _]%orb_false_iff Heq.
    simplify_eq. by rewrite Ascii.eqb_refl in Hx.
  - rewrite has_char_cons. intros [Hx _]%orb_false_iff _ Heq.
    simplify_eq. by rewrite Ascii.eqb_refl in Hx.
  - rewrite !has_char_cons. intros [_ Ha]%orb_false_iff [_ Ha']%orb_false_iff Heq.
    simplify_eq. destruct (IH a' Ha Ha') as [-> ->]; done.
Qed.

Lemma string_length_app s t :
  String.length (s ++ t) = (String.length s + String.length t)%nat.
Proof.
  induction s as [|c s IH]; [done|]. rewrite app_cons. cbn. by rewrite IH.
Qed.

Lemma app_inv_tail' s s' t : s ++ t = s' ++ t → s = s'.
Proof.
  revert s'. induction s as [|c s IH]; intros [|c' s'] Heq; [done|..].
  - apply (f_equal String.length) in Heq.
    rewrite !string_length_app in Heq. cbn in Heq. lia.
  - apply (f_equal String.length) in Heq.
    rewrite !string_length_app in Heq. cbn in Heq. lia.
  - rewrite !app_cons in Heq. simplify_eq. f_equal. by apply IH.
Qed.

(** X10.  Distinct pairs of coin and metric get distinct file names, as
    long as the prefixes hold no underscore and prefixes and metrics are
    ASCII text without upper-case letters: the file name then gives back
    the prefix and the metric. *)
Theorem data_filename_inj coin1 metric1 coin2 metric2 :
  has_char UNDERSCORE (data_filename_prefix coin1) = false →
  has_char UNDERSCORE (data_filename_prefix coin2) = false →
  all_chars is_ascii_not_upper (data_filename_prefix coin1 ++ metric1) = true →
  all_chars is_ascii_not_upper (data_filename_prefix coin2 ++ metric2) = true →
  data_filename coin1 metric1 = data_filename coin2 metric2 →
  data_filename_prefix coin1 = data_filename_prefix coin2 ∧ metric1 = metric2.
Proof.
  intros Hu1 Hu2 Hl1 Hl2 Heq. unfold data_filename in Heq.
  apply app_inv_tail' in Heq. rewrite !upper_app in Heq.
  change (upper "_") with (String UNDERSCORE EmptyString) in Heq.
  rewrite !app_cons, !app_empty_l in Heq.
  assert (∀ s, all_chars is_ascii_not_upper s = true →
    all_chars (λ c, negb (is_upper_letter c)) s = true) as Hweak.
  { intros s. apply all_chars_impl. intros c. unfold is_ascii_not_upper.
    by intros [_ ?]%andb_true_iff. }
  rewrite all_chars_app in Hl1, Hl2.
  apply andb_true_iff in Hl1 as [Hp1 Hm1], Hl2 as [Hp2 Hm2].
  apply app_first_occurrence in Heq as [Hp Hm];
    [|by rewrite has_char_upper_underscore..].
  split; apply upper_inj; auto.
Qed.

Lemma data_filename_inj_witness :
  data_filename_prefix (mk_coin "bitcoin" "btc")
    = data_filename_prefix (mk_coin "bitcoin-again" "btc")
  ∧ "dev_activity" = "dev_activity".
Proof.
  apply (data_filename_inj (mk_coin "bitcoin" "btc") "dev_activity"
           (mk_coin "bitcoin-again" "btc") "dev_activity"); reflexivity.
Defined.

(** ** The loops of [main] *)

Section loops.
Context (api : string → string → string → result (list data_point)).
Context (data_folder to_date : string).

Lemma for_pairs_app l1 l2 w :
  for_pairs api data_folder to_date (l1 ++ l2) w =
    match for_pairs api data_folder to_date l1 w with
    | Done w' => for_pairs api data_folder to_date l2 w'
    | Failed e w' => Failed e w'
    end.
Proof.
  revert w. induction l1 as [|[c m] l1 IH]; intros w; [done|].
  cbn. by destruct (process_data_file_full _ _ _ _ _ _).
Qed.

Lemma for_metrics_pairs coin metrics w :
  for_metrics api data_folder to_date coin metrics w =
    for_pairs api data_folder to_date ((λ metric, (coin, metric)) <$> metrics) w.
Proof.
  revert w. induction metrics as [|m metrics IH]; intros w; [done|].
  cbn. by destruct (process_data_file_full _ _ _ _ _ _).
Qed.

(** The two loops take the pairs of coin and metric coin by coin. *)
Lemma for_coins_pairs coins metrics w :
  for_coins api data_folder to_date coins metrics w =
    for_pairs api data_folder to_date (pairs_of coins metrics) w.
Proof.
  revert w. induction coins as [|c coins IH]; intros w; [done|].
  cbn [for_coins]. unfold pairs_of. cbn [mbind list_bind].
  rewrite for_pairs_app, for_metrics_pairs.
  destruct (for_pairs _ _ _ _ w); [apply IH|done].
Qed.

Lemma process_data_file_full_Ok coin metric w w' :
  process_data_file_full api data_folder coin metric to_date w = Ok w' →
  ∃ data_json fs',
    api metric (slug coin) to_date = Ok data_json ∧
    process_data_file data_json (out_path data_folder coin metric) (files w)
      = Ok fs' ∧
    w' = mk_world fs' (stdout w ++ [updated_line coin metric]).
Proof.
  unfold process_data_file_full.
  destruct (api metric (slug coin) to_date) as [data_json|e]; [|done]. cbn.
  destruct (process_data_file _ _ _) as [fs'|e] eqn:Hfs; [|done]. cbn.
  intros; simplify_eq. by exists data_json, fs'.
Qed.

Lemma process_data_file_frame data_json path fs fs' other :
  process_data_file data_json path fs = Ok fs' → other ≠ path →
  fs' !! other = fs !! other.
Proof.
  unfold process_data_file.
  destruct (convert_datetimes data_json) as [l|e]; [|done]. cbn.
  rewrite save_new_data_final.
  destruct (final_table l path fs) as [d|e]; [|done]. cbn.
  intros; simplify_eq. by rewrite lookup_insert_ne.
Qed.

(** What [process_data_file] leaves in its file depends on that file
    alone. *)
Lemma process_data_file_local data_json path fs1 fs2 fs1' :
  fs1 !! path = fs2 !! path →
  process_data_file data_json path fs1 = Ok fs1' →
  ∃ fs2', process_data_file data_json path fs2 = Ok fs2' ∧
          fs2' !! path = fs1' !! path.
Proof.
  intros Hsame. unfold process_data_file.
  destruct (convert_datetimes data_json) as [l|e]; [|done]. cbn.
  rewrite !save_new_data_final. unfold final_table, load_table.
  rewrite Hsame. destruct (fs2 !! path) as [content|].
  - destruct (csv_reader content) as [rows|e]; [|done]. cbn.
    destruct (load_rows ∅ rows) as [A|e]; [|done]. cbn.
    intros; simplify_eq. eexists. split; [done|]. by rewrite !lookup_insert_eq.
  - cbn. intros; simplify_eq. eexists. split; [done|].
    by rewrite !lookup_insert_eq.
Qed.

Lemma for_pairs_progress pairs : ∀ w,
  let o := for_pairs api data_folder to_date pairs w in
  ∃ n : nat,
    (n ≤ length pairs)%nat ∧
    stdout (final_world o) = (stdout w ++ (pair_line <$> take n pairs))%list ∧
    (∀ path, path ∉ pair_path data_folder <$> take n pairs →
             files (final_world o) !! path = files w !! path) ∧
    match o with
    | Done _ => n = length pairs
    | Failed e w' =>
        ∃ pair, pairs !! n = Some pair ∧
          process_data_file_full api data_folder pair.1 pair.2 to_date w' = Raise e
    end.
Proof.
  induction pairs as [|[c m] pairs IH]; intros w; cbn.
  - exists 0. split; [done|]. cbn. split; [by rewrite app_nil_r|done].
  - destruct (process_data_file_full api data_folder c m to_date w)
      as [w1|e] eqn:Hstep.
    + destruct (IH w1) as (n & Hn & Hout & Hframe & Hend).
      apply process_data_file_full_Ok in Hstep
        as (data_json & fs' & _ & Hfs & ->).
      exists (S n). split; [lia|]. cbn [take fmap list_fmap].
      split; [|split].
      * rewrite Hout. cbn. by rewrite <-(assoc_L (++)%list).
      * intros path [Hne Hnot]%not_elem_of_cons. rewrite (Hframe path Hnot).
        cbn. by eapply process_data_file_frame.
      * destruct (for_pairs _ _ _ pairs _); [by f_equal|done].
    + exists 0. cbn. split; [lia|].
      split; [by rewrite app_nil_r|]. split; [done|].
      by exists (c, m).
Qed.

Lemma for_pairs_independent pairs : ∀ w w',
  NoDup (pair_path data_folder <$> pairs) →
  for_pairs api data_folder to_date pairs w = Done w' →
  ∀ pair, pair ∈ pairs →
    ∃ data_json fs1,
      api pair.2 (slug pair.1) to_date = Ok data_json ∧
      process_data_file data_json (pair_path data_folder pair) (files w) = Ok fs1 ∧
      files w' !! pair_path data_folder pair = fs1 !! pair_path data_folder pair.
Proof.
  induction pairs as [|[c m] pairs IH]; intros w w' Hnd Hrun pair Hpair.
  { by apply not_elem_of_nil in Hpair. }
  cbn [fmap list_fmap] in Hnd. apply NoDup_cons in Hnd as [Hfresh Hnd].
  cbn in Hrun.
  destruct (process_data_file_full api data_folder c m to_date w)
    as [w1|e] eqn:Hstep; [|done].
  apply process_data_file_full_Ok in Hstep as (data_json & fs' & Hapi & Hfs & ->).
  apply elem_of_cons in Hpair as [->|Hpair].
  - exists data_json, fs'. split; [done|]. split; [done|].
    pose proof (for_pairs_progress pairs (mk_world fs' (stdout w ++ [updated_line c m])))
      as (n & _ & _ & Hframe & _).
    rewrite Hrun in Hframe. cbn in Hframe. apply Hframe.
    intros Hin. apply Hfresh.
    apply list_elem_of_fmap in Hin as (pair & Heq & Hin).
    apply list_elem_of_fmap. exists pair. split; [done|].
    by apply (subseteq_take n pairs).
  - destruct (IH _ _ Hnd Hrun pair Hpair) as (dj & fs1 & Hapi' & Hfs1 & Hfile).
    cbn in Hfs1.
    assert (pair_path data_folder pair ≠ out_path data_folder c m) as Hne.
    { intros Heq. apply Hfresh.
      change (pair_path data_folder (c, m)) with (out_path data_folder c m).
      rewrite <-Heq. by apply list_elem_of_fmap_2. }
    destruct (process_data_file_local dj (pair_path data_folder pair) fs' (files w) fs1)
      as (fs2 & Hfs2 & Hsame); [|done|].
    { by eapply process_data_file_frame. }
    exists dj, fs2. split; [done|]. split; [done|]. by rewrite Hfile.
Qed.

End loops.

(** ** [main] *)

Lemma path_join_relative a :
  ∃ pfx, ∀ b, startswith_sep b = false → path_join a b = pfx ++ b.
Proof.
  destruct (negb (nonempty a) || endswith_sep a) eqn:Ha.
  - exists a. intros b Hb. unfold path_join. by rewrite Hb, Ha.
  - exists (a ++ String SEP EmptyString). intros b Hb. unfold path_join.
    by rewrite Hb, Ha, app_snoc.
Qed.

(** The sixteen files of the module are distinct in every folder. *)
Lemma module_paths_NoDup data_folder :
  NoDup (pair_path data_folder <$> pairs_of COIN_INFOS METRICS).
Proof.
  destruct (path_join_relative data_folder) as [pfx Hpfx].
  assert (pair_path data_folder <$> pairs_of COIN_INFOS METRICS =
          String.app pfx <$>
            ((λ pair, data_filename pair.1 pair.2) <$> pairs_of COIN_INFOS METRICS))
    as ->.
  { rewrite <-list_fmap_compose. apply Forall_fmap_ext, Forall_forall.
    intros pair Hpair. unfold pair_path, out_path. cbn. apply Hpfx.
    revert pair Hpair. apply Forall_forall.
    apply (bool_decide_unpack _). vm_compute. exact I. }
  apply (NoDup_fmap_2 _). apply (bool_decide_unpack _). vm_compute. exact I.
Qed.


(** X12.  The pairs do not interfere.  After a run of [main] that ends
    normally, the file of each pair holds what [process_data_file] alone,
    on the files as they were before the run, leaves in it for the
    response to that pair's request. *)
Theorem main_independent api data_folder to_date w w' :
  main api data_folder to_date w = Done w' →
  ∀ pair, pair ∈ pairs_of COIN_INFOS METRICS →
    ∃ data_json fs1,
      api pair.2 (slug pair.1) to_date = Ok data_json ∧
      process_data_file data_json (pair_path data_folder pair) (files w) = Ok fs1 ∧
      files w' !! pair_path data_folder pair = fs1 !! pair_path data_folder pair.
Proof.
  unfold main. rewrite for_coins_pairs. intros Hrun.
  by apply (for_pairs_independent api data_folder to_date _ w w'
              (module_paths_NoDup data_folder)).
Qed.

Lemma main_independent_witness :
  ∃ w', main (λ _ _ _, Ok [mk_point "2023-05-04T00:00:00Z" (PyFloat "1.5")])
          "." "2023-05-05T23:59:59Z" (mk_world ∅ []) = Done w' ∧
  ∀ pair, pair ∈ pairs_of COIN_INFOS METRICS →
    ∃ data_json fs1,
      Ok [mk_point "2023-05-04T00:00:00Z" (PyFloat "1.5")] = Ok data_json ∧
      process_data_file data_json (pair_path "." pair) ∅ = Ok fs1 ∧
      files w' !! pair_path "." pair = fs1 !! pair_path "." pair.
Proof.
  eexists. split; [vm_compute; reflexivity|].
  apply (main_independent
           (λ _ _ _, Ok [mk_point "2023-05-04T00:00:00Z" (PyFloat "1.5")])
           "." "2023-05-05T23:59:59Z" (mk_world ∅ [])).
  vm_compute. reflexivity.
Defined.

(** ** The order of the rows and the calendar *)

Lemma is_digit_N c :
  is_digit c = true → (48 ≤ N_of_ascii c ≤ 57)%N.
Proof.
  unfold is_digit, nat_of_ascii. intros [H1 H2]%andb_true_iff.
  apply Nat.leb_le in H1, H2. lia.
Qed.

Lemma N_of_ascii_inj c c' : N_of_ascii c = N_of_ascii c' → c = c'.
Proof.
  intros Heq. by rewrite <-(ascii_N_embedding c), <-(ascii_N_embedding c'), Heq.
Qed.

Lemma digits_value_from_lt s : ∀ t a b,
  String.length s = String.length t →
  all_chars is_digit s = true → all_chars is_digit t = true →
  (a < b)%N → (digits_value_from a s < digits_value_from b t)%N.
Proof.
  induction s as [|c s IH]; intros [|c' t] a b Hlen Hs Ht Hab; try done.
  cbn in Hs, Ht. apply andb_true_iff in Hs as [Hc Hs].
  apply andb_true_iff in Ht as [Hc' Ht].
  apply is_digit_N in Hc, Hc'. cbn [digits_value_from].
  apply IH; [by simplify_eq/=|done..|lia].
Qed.

Lemma digits_value_from_compare s : ∀ t a,
  String.length s = String.length t →
  all_chars is_digit s = true → all_chars is_digit t = true →
  String.compare s t = (digits_value_from a s ?= digits_value_from a t)%N.
Proof.
  induction s as [|c s IH]; intros [|c' t] a Hlen Hs Ht; try done.
  { cbn. by rewrite N.compare_refl. }
  cbn in Hs, Ht. apply andb_true_iff in Hs as [Hc Hs].
  apply andb_true_iff in Ht as [Hc' Ht].
  assert (String.length s = String.length t) as Hlen' by by simplify_eq/=.
  cbn [String.compare digits_value_from]. unfold Ascii.compare.
  pose proof (is_digit_N c Hc). pose proof (is_digit_N c' Hc').
  destruct (N.compare_spec (N_of_ascii c) (N_of_ascii c')) as [Heq|Hlt|Hgt].
  - apply N_of_ascii_inj in Heq as ->. by apply IH.
  - symmetry. apply N.compare_lt_iff.
    apply digits_value_from_lt; [done..|lia].
  - symmetry. apply N.compare_gt_iff.
    apply digits_value_from_lt; [done..|lia].
Qed.

Lemma string_compare_refl s : String.compare s s = Eq.
Proof. induction s as [|c s IH]; [done|]. cbn. by rewrite ascii_compare_refl. Qed.

Lemma string_compare_app s : ∀ t u,
  String.length s = String.length t →
  String.compare (s ++ u) (t ++ u) = String.compare s t.
Proof.
  induction s as [|c s IH]; intros [|c' t] u Hlen; try done.
  { cbn. apply string_compare_refl. }
  rewrite !app_cons. cbn [String.compare].
  rewrite IH by by simplify_eq/=. done.
Qed.

(** X13.  For keys of the form the conversion gives, the same number of
    digits followed by T, the order [sorted] puts the rows in is the
    order of the dates as numbers: a file of such keys is
    chronological. *)
Theorem str_lt_chronological d1 d2 :
  String.length d1 = String.length d2 →
  all_chars is_digit d1 = true →
  all_chars is_digit d2 = true →
  str_lt (d1 ++ "T") (d2 ++ "T") ↔ (digits_value d1 < digits_value d2)%N.
Proof.
  intros Hlen H1 H2. unfold str_lt, digits_value.
  rewrite string_compare_app by done.
  rewrite (digits_value_from_compare d1 d2 0) by done.
  apply N.compare_lt_iff.
Qed.

Lemma str_lt_chronological_witness :
  str_lt ("20221231" ++ "T") ("20230101" ++ "T") ↔
  (digits_value "20221231" < digits_value "20230101")%N.
Proof. apply (str_lt_chronological "20221231" "20230101"); reflexivity. Defined.
